(** * Resume builder: the document model, its mutations, persistence,
      templates and export file name, embedded from
      [src/resume_builder_react.jsx]. *)

From Stdlib Require Import Ascii String List ZArith NArith Bool Lia.
From Stdlib Require Decimal DecimalN DecimalFacts.
Import ListNotations.

Set Implicit Arguments.

(** ** JavaScript strings

    A JavaScript string is a sequence of 16-bit code units.  [js] reads an
    ASCII literal of the source as such a sequence; characters of the source
    outside ASCII are written by their code unit. *)

Definition jsstring := list N.

Definition js (s : string) : jsstring :=
  map N_of_ascii (list_ascii_of_string s).

(** ToBoolean on a string: only the empty string is falsy. *)
Definition truthy (s : jsstring) : bool :=
  match s with
  | [] => false
  | _ :: _ => true
  end.

(** [a || b] on strings. *)
Definition js_or (a b : jsstring) : jsstring :=
  if truthy a then a else b.

Fixpoint jsstring_eqb (a b : jsstring) : bool :=
  match a, b with
  | [], [] => true
  | x :: a', y :: b' => (x =? y)%N && jsstring_eqb a' b'
  | _, _ => false
  end.

(** ** Data model: the object literal [defaultData] fixes the shape. *)

Module Personal.

Record t := mk {
  firstName : jsstring;
  lastName : jsstring;
  title : jsstring;
  email : jsstring;
  phone : jsstring;
  location : jsstring;
  linkedin : jsstring;
  website : jsstring
}.

(** The property names the form passes to [setPersonalField]. *)
Inductive field :=
| FirstName | LastName | Title | Email | Phone | Location | Linkedin | Website.

Definition field_eqb (f g : field) : bool :=
  match f, g with
  | FirstName, FirstName | LastName, LastName | Title, Title
  | Email, Email | Phone, Phone | Location, Location
  | Linkedin, Linkedin | Website, Website => true
  | _, _ => false
  end.

Definition key (f : field) : jsstring :=
  match f with
  | FirstName => js "firstName"
  | LastName => js "lastName"
  | Title => js "title"
  | Email => js "email"
  | Phone => js "phone"
  | Location => js "location"
  | Linkedin => js "linkedin"
  | Website => js "website"
  end.

(** [p[field]] *)
Definition get (f : field) (p : t) : jsstring :=
  match f with
  | FirstName => firstName p
  | LastName => lastName p
  | Title => title p
  | Email => email p
  | Phone => phone p
  | Location => location p
  | Linkedin => linkedin p
  | Website => website p
  end.

(** [{ ...p, [field]: value }] *)
Definition set (f : field) (value : jsstring) (p : t) : t :=
  match f with
  | FirstName => mk value (lastName p) (title p) (email p) (phone p) (location p) (linkedin p) (website p)
  | LastName => mk (firstName p) value (title p) (email p) (phone p) (location p) (linkedin p) (website p)
  | Title => mk (firstName p) (lastName p) value (email p) (phone p) (location p) (linkedin p) (website p)
  | Email => mk (firstName p) (lastName p) (title p) value (phone p) (location p) (linkedin p) (website p)
  | Phone => mk (firstName p) (lastName p) (title p) (email p) value (location p) (linkedin p) (website p)
  | Location => mk (firstName p) (lastName p) (title p) (email p) (phone p) value (linkedin p) (website p)
  | Linkedin => mk (firstName p) (lastName p) (title p) (email p) (phone p) (location p) value (website p)
  | Website => mk (firstName p) (lastName p) (title p) (email p) (phone p) (location p) (linkedin p) value
  end.

End Personal.

Module Experience.

Record t := mk {
  id : Z;
  title : jsstring;
  company : jsstring;
  start : jsstring;
  end_ : jsstring;
  description : jsstring
}.

(** The property names the form passes to [updateExperience]. *)
Inductive field := Title | Company | Start | End | Description.

Definition key (f : field) : jsstring :=
  match f with
  | Title => js "title"
  | Company => js "company"
  | Start => js "start"
  | End => js "end"
  | Description => js "description"
  end.

(** [{ ...exp, [field]: value }] *)
Definition set (f : field) (value : jsstring) (exp : t) : t :=
  match f with
  | Title => mk (id exp) value (company exp) (start exp) (end_ exp) (description exp)
  | Company => mk (id exp) (title exp) value (start exp) (end_ exp) (description exp)
  | Start => mk (id exp) (title exp) (company exp) value (end_ exp) (description exp)
  | End => mk (id exp) (title exp) (company exp) (start exp) value (description exp)
  | Description => mk (id exp) (title exp) (company exp) (start exp) (end_ exp) value
  end.

End Experience.

Module Education.

Record t := mk {
  id : Z;
  degree : jsstring;
  school : jsstring;
  year : jsstring
}.

(** The property names the form passes to [updateEducation]. *)
Inductive field := Degree | School | Year.

Definition key (f : field) : jsstring :=
  match f with
  | Degree => js "degree"
  | School => js "school"
  | Year => js "year"
  end.

(** [{ ...ed, [field]: value }] *)
Definition set (f : field) (value : jsstring) (ed : t) : t :=
  match f with
  | Degree => mk (id ed) value (school ed) (year ed)
  | School => mk (id ed) (degree ed) value (year ed)
  | Year => mk (id ed) (degree ed) (school ed) value
  end.

End Education.

Record ResumeDocument := Doc {
  personal : Personal.t;
  summary : jsstring;
  skills : list jsstring;
  experience : list Experience.t;
  education : list Education.t;
  template : jsstring
}.

(** [defaultData].  The two calls of [Date.now()] in the literal are
    evaluated when the module is loaded; [t0] and [t1] are what they return. *)
Definition defaultData (t0 t1 : Z) : ResumeDocument :=
  {| personal :=
       {| Personal.firstName := js "Jane";
          Personal.lastName := js "Doe";
          Personal.title := js "Product Manager";
          Personal.email := js "jane.doe@example.com";
          Personal.phone := js "(555) 555-5555";
          Personal.location := js "Wilmington, DE";
          Personal.linkedin := js "linkedin.com/in/janedoe";
          Personal.website := js "janedoe.com" |};
     summary := js "Product manager with 5+ years of experience launching customer-focused features and leading cross-functional teams.";
     skills := [js "Product Strategy"; js "Roadmapping"; js "User Research";
                js "Stakeholder Management"];
     experience :=
       [ {| Experience.id := t0;
            Experience.title := js "Associate Product Manager";
            Experience.company := js "TechCorp";
            Experience.start := js "Jan 2021";
            Experience.end_ := js "Present";
            Experience.description := js "Owned feature lifecycle from discovery to launch. Led A/B tests and improved retention by 12%." |} ];
     education :=
       [ {| Education.id := t1 + 1;
            Education.degree := js "B.A. Business Administration";
            Education.school := js "University of Delaware";
            Education.year := js "2019" |} ];
     template := js "modern" |}.

(** ** DocumentStore: the state updaters given to [setData]

    Each function below is the updater [prev => ...] of the handler of the
    same name. *)

Definition setPersonalField (field : Personal.field) (value : jsstring)
    (prev : ResumeDocument) : ResumeDocument :=
  {| personal := Personal.set field value (personal prev);
     summary := summary prev; skills := skills prev;
     experience := experience prev; education := education prev;
     template := template prev |}.

Definition setSummary (value : jsstring) (prev : ResumeDocument) : ResumeDocument :=
  {| personal := personal prev;
     summary := value; skills := skills prev;
     experience := experience prev; education := education prev;
     template := template prev |}.

Definition setTemplate (tpl : jsstring) (prev : ResumeDocument) : ResumeDocument :=
  {| personal := personal prev;
     summary := summary prev; skills := skills prev;
     experience := experience prev; education := education prev;
     template := tpl |}.

(** [{ ...prev, skills: l }] *)
Definition with_skills (l : list jsstring) (prev : ResumeDocument) : ResumeDocument :=
  {| personal := personal prev;
     summary := summary prev; skills := l;
     experience := experience prev; education := education prev;
     template := template prev |}.

(** [{ ...prev, experience: l }] *)
Definition with_experience (l : list Experience.t) (prev : ResumeDocument)
    : ResumeDocument :=
  {| personal := personal prev;
     summary := summary prev; skills := skills prev;
     experience := l; education := education prev;
     template := template prev |}.

(** [{ ...prev, education: l }] *)
Definition with_education (l : list Education.t) (prev : ResumeDocument)
    : ResumeDocument :=
  {| personal := personal prev;
     summary := summary prev; skills := skills prev;
     experience := experience prev; education := l;
     template := template prev |}.

(** [if (!skill) return; setData(prev => ...)] *)
Definition addSkill (skill : jsstring) (prev : ResumeDocument) : ResumeDocument :=
  if negb (truthy skill) then prev
  else with_skills (skills prev ++ [skill]) prev.

(** [arr.filter((_, i) => keep i)], the callback reading the index only. *)
Fixpoint filter_index {A} (keep : nat -> bool) (i : nat) (l : list A) : list A :=
  match l with
  | [] => []
  | x :: l' =>
      if keep i then x :: filter_index keep (S i) l'
      else filter_index keep (S i) l'
  end.

Definition removeSkill (index : nat) (prev : ResumeDocument) : ResumeDocument :=
  with_skills (filter_index (fun i => negb (i =? index)%nat) 0 (skills prev)) prev.

(** The Clear button: [setData(prev => ({ ...prev, skills: [] }))]. *)
Definition clearSkills (prev : ResumeDocument) : ResumeDocument :=
  with_skills [] prev.

(** [now] is what [Date.now()] returns in the handler. *)
Definition addExperience (now : Z) (prev : ResumeDocument) : ResumeDocument :=
  let newExp := Experience.mk now [] [] [] [] [] in
  with_experience (experience prev ++ [newExp]) prev.

Definition updateExperience (id : Z) (field : Experience.field) (value : jsstring)
    (prev : ResumeDocument) : ResumeDocument :=
  with_experience
    (map (fun exp => if (Experience.id exp =? id)%Z
                     then Experience.set field value exp else exp)
         (experience prev))
    prev.

Definition removeExperience (id : Z) (prev : ResumeDocument) : ResumeDocument :=
  with_experience
    (filter (fun e => negb (Experience.id e =? id)%Z) (experience prev)) prev.

(** The [Reset to sample] button:
    [setData(prev => ({ ...prev, experience: [defaultData.experience[0]] }))]. *)
Definition resetExperienceToSample (t0 t1 : Z) (prev : ResumeDocument)
    : ResumeDocument :=
  with_experience (firstn 1 (experience (defaultData t0 t1))) prev.

Definition addEducation (now : Z) (prev : ResumeDocument) : ResumeDocument :=
  let newEd := Education.mk now [] [] [] in
  with_education (education prev ++ [newEd]) prev.

Definition updateEducation (id : Z) (field : Education.field) (value : jsstring)
    (prev : ResumeDocument) : ResumeDocument :=
  with_education
    (map (fun ed => if (Education.id ed =? id)%Z
                    then Education.set field value ed else ed)
         (education prev))
    prev.

Definition removeEducation (id : Z) (prev : ResumeDocument) : ResumeDocument :=
  with_education
    (filter (fun e => negb (Education.id e =? id)%Z) (education prev)) prev.

(** [resetDraft]: [confirmed] is the answer of the [confirm] dialog. *)
Definition resetDraft (t0 t1 : Z) (confirmed : bool) (prev : ResumeDocument)
    : ResumeDocument :=
  if confirmed then defaultData t0 t1 else prev.

(** The handlers a user of the form can trigger, with their arguments and
    the clock reading where the handler takes one. *)
Inductive Mutation :=
| SetPersonalField (field : Personal.field) (value : jsstring)
| SetSummary (value : jsstring)
| SetTemplate (tpl : jsstring)
| AddSkill (skill : jsstring)
| RemoveSkill (index : nat)
| ClearSkills
| AddExperience (now : Z)
| UpdateExperience (id : Z) (field : Experience.field) (value : jsstring)
| RemoveExperience (id : Z)
| ResetExperienceToSample
| AddEducation (now : Z)
| UpdateEducation (id : Z) (field : Education.field) (value : jsstring)
| RemoveEducation (id : Z)
| ResetDraft (confirmed : bool).

Section Store.

(** Clock readings at module load. *)
Variables t0 t1 : Z.

Definition step (prev : ResumeDocument) (m : Mutation) : ResumeDocument :=
  match m with
  | SetPersonalField f v => setPersonalField f v prev
  | SetSummary v => setSummary v prev
  | SetTemplate tpl => setTemplate tpl prev
  | AddSkill s => addSkill s prev
  | RemoveSkill i => removeSkill i prev
  | ClearSkills => clearSkills prev
  | AddExperience now => addExperience now prev
  | UpdateExperience id f v => updateExperience id f v prev
  | RemoveExperience id => removeExperience id prev
  | ResetExperienceToSample => resetExperienceToSample t0 t1 prev
  | AddEducation now => addEducation now prev
  | UpdateEducation id f v => updateEducation id f v prev
  | RemoveEducation id => removeEducation id prev
  | ResetDraft c => resetDraft t0 t1 c prev
  end.

Definition run (ms : list Mutation) (d : ResumeDocument) : ResumeDocument :=
  fold_left step ms d.

End Store.

(** ** JSON values and the codec of the platform

    [JSON.stringify] and [JSON.parse] are built-ins of the platform, modelled
    here after ECMA-262 (sections 25.5.1 and 25.5.2) and ECMA-404.  Numbers
    are kept exactly, as decimals [n / 10^k] in lowest terms of ten; the
    rounding of a literal to the nearest double is not modelled.  Document ids
    are clock readings in milliseconds, integers far below 2^53, on which the
    exact value and the double agree.  Properties of an object are kept in
    insertion order (an engine lists integer-like keys first; no key of the
    document is one).  Limits of an engine on the depth of nesting are not
    modelled. *)

#[local] Unset Elimination Schemes.

(** [JNum n k] is the number [n / 10^k]; an integer has [k = 0]. *)
Inductive json :=
| JNull
| JBool (b : bool)
| JNum (n : Z) (k : nat)
| JStr (s : jsstring)
| JArr (l : list json)
| JObj (m : list (jsstring * json)).

#[local] Set Elimination Schemes.

(** Outcome of a parsing function: a result with the unread input, a syntax
    error, or recursion budget used up. *)
Inductive outcome (A : Type) :=
| Parsed (a : A)
| Invalid
| Exhausted.

Arguments Invalid {A}.
Arguments Exhausted {A}.

Definition obind {A B} (o : outcome A) (f : A -> outcome B) : outcome B :=
  match o with
  | Parsed a => f a
  | Invalid => Invalid
  | Exhausted => Exhausted
  end.

Module Codec.

Local Open Scope N_scope.

(** *** Characters *)

Definition is_ws (c : N) : bool :=
  (c =? 32) || (c =? 9) || (c =? 10) || (c =? 13).

Definition is_digit (c : N) : bool := (48 <=? c) && (c <=? 57).

Definition is_lead (c : N) : bool := (55296 <=? c) && (c <=? 56319).
Definition is_trail (c : N) : bool := (56320 <=? c) && (c <=? 57343).

Fixpoint skip_ws (s : list N) : list N :=
  match s with
  | c :: s' => if is_ws c then skip_ws s' else s
  | [] => []
  end.

(** *** Numbers *)

Definition digit_cons (d : N) (u : Decimal.uint) : Decimal.uint :=
  match d with
  | 0 => Decimal.D0 u | 1 => Decimal.D1 u | 2 => Decimal.D2 u
  | 3 => Decimal.D3 u | 4 => Decimal.D4 u | 5 => Decimal.D5 u
  | 6 => Decimal.D6 u | 7 => Decimal.D7 u | 8 => Decimal.D8 u
  | _ => Decimal.D9 u
  end.

Fixpoint uint_chars (u : Decimal.uint) : list N :=
  match u with
  | Decimal.Nil => []
  | Decimal.D0 u => 48 :: uint_chars u
  | Decimal.D1 u => 49 :: uint_chars u
  | Decimal.D2 u => 50 :: uint_chars u
  | Decimal.D3 u => 51 :: uint_chars u
  | Decimal.D4 u => 52 :: uint_chars u
  | Decimal.D5 u => 53 :: uint_chars u
  | Decimal.D6 u => 54 :: uint_chars u
  | Decimal.D7 u => 55 :: uint_chars u
  | Decimal.D8 u => 56 :: uint_chars u
  | Decimal.D9 u => 57 :: uint_chars u
  end.

(** The longest run of digits at the head of the input. *)
Fixpoint read_digits (s : list N) : Decimal.uint * list N :=
  match s with
  | c :: s' =>
      if is_digit c then
        let (u, r) := read_digits s' in (digit_cons (c - 48) u, r)
      else (Decimal.Nil, s)
  | [] => (Decimal.Nil, [])
  end.

(** The integer part of a number: [0], or digits not starting with [0]. *)
Definition int_ok (u : Decimal.uint) : bool :=
  match u with
  | Decimal.Nil => false
  | Decimal.D0 Decimal.Nil => true
  | Decimal.D0 _ => false
  | _ => true
  end.

(** [n / 10^k] with the trailing zeros of the fraction removed. *)
Fixpoint normalise (n : Z) (k : nat) : Z * nat :=
  match k with
  | O => (n, O)
  | S k' => if (n mod 10 =? 0)%Z then normalise (n / 10)%Z k' else (n, k)
  end.

(** The value of sign, digits [ip.fp] and exponent [e]. *)
Definition number_value (neg : bool) (ip fp : Decimal.uint) (e : Z) : json :=
  let d := Z.of_N (N.of_uint (Decimal.app ip fp)) in
  let d := if neg then Z.opp d else d in
  let e' := (e - Z.of_nat (Decimal.nb_digits fp))%Z in
  if (0 <=? e')%Z then JNum (d * 10 ^ e')%Z O
  else let (n, k) := normalise d (Z.to_nat (- e')) in JNum n k.

Definition parse_fraction (s : list N) : outcome (Decimal.uint * list N) :=
  match s with
  | c :: s1 =>
      if c =? 46 then
        let (fp, s2) := read_digits s1 in
        match fp with
        | Decimal.Nil => Invalid
        | _ => Parsed (fp, s2)
        end
      else Parsed (Decimal.Nil, s)
  | [] => Parsed (Decimal.Nil, s)
  end.

(** An optional sign: whether it is a minus, and the input after it. *)
Definition parse_sign (plus : bool) (s : list N) : bool * list N :=
  match s with
  | c :: s' =>
      if c =? 45 then (true, s')
      else if plus && (c =? 43) then (false, s')
      else (false, s)
  | [] => (false, s)
  end.

Definition parse_exponent (s : list N) : outcome (Z * list N) :=
  match s with
  | c :: s1 =>
      if (c =? 101) || (c =? 69) then
        let (eneg, s2) := parse_sign true s1 in
        let (ep, s3) := read_digits s2 in
        match ep with
        | Decimal.Nil => Invalid
        | _ =>
            let e := Z.of_N (N.of_uint ep) in
            Parsed (if eneg then Z.opp e else e, s3)
        end
      else Parsed (0%Z, s)
  | [] => Parsed (0%Z, s)
  end.

Definition parse_number (s : list N) : outcome (json * list N) :=
  let (neg, s1) := parse_sign false s in
  let (ip, s2) := read_digits s1 in
  if int_ok ip then
    obind (parse_fraction s2) (fun '(fp, s3) =>
    obind (parse_exponent s3) (fun '(e, s4) =>
    Parsed (number_value neg ip fp e, s4)))
  else Invalid.

Fixpoint zeros (n : nat) : list N :=
  match n with
  | O => []
  | S n' => 48 :: zeros n'
  end.

Definition print_number (n : Z) (k : nat) : list N :=
  let sign := if (n <? 0)%Z then [45] else [] in
  let a := Z.abs_N n in
  match k with
  | O => sign ++ uint_chars (N.to_uint a)
  | S _ =>
      let p := 10 ^ N.of_nat k in
      let fp := uint_chars (N.to_uint (a mod p)) in
      sign ++ uint_chars (N.to_uint (a / p)) ++ [46]
           ++ zeros (k - length fp) ++ fp
  end.

(** *** Strings *)

Definition hex_val (c : N) : option N :=
  if is_digit c then Some (c - 48)
  else if (97 <=? c) && (c <=? 102) then Some (c - 87)
  else if (65 <=? c) && (c <=? 70) then Some (c - 55)
  else None.

Definition hex4 (a b c d : N) : option N :=
  match hex_val a, hex_val b, hex_val c, hex_val d with
  | Some x, Some y, Some z, Some w => Some (4096 * x + 256 * y + 16 * z + w)
  | _, _, _, _ => None
  end.

(** The character a two-character escape stands for. *)
Definition unescape (e : N) : option N :=
  if e =? 34 then Some 34
  else if e =? 92 then Some 92
  else if e =? 47 then Some 47
  else if e =? 98 then Some 8
  else if e =? 102 then Some 12
  else if e =? 110 then Some 10
  else if e =? 114 then Some 13
  else if e =? 116 then Some 9
  else None.

Definition cons_char (c : N) (o : outcome (jsstring * list N))
    : outcome (jsstring * list N) :=
  obind o (fun '(str, r) => Parsed (c :: str, r)).

(** The characters of a string literal after its opening quote. *)
Fixpoint parse_chars (s : list N) : outcome (jsstring * list N) :=
  match s with
  | [] => Invalid
  | c :: s1 =>
      if c =? 34 then Parsed ([], s1)
      else if c =? 92 then
        match s1 with
        | [] => Invalid
        | e :: s2 =>
            if e =? 117 then
              match s2 with
              | h1 :: h2 :: h3 :: h4 :: s3 =>
                  match hex4 h1 h2 h3 h4 with
                  | Some u => cons_char u (parse_chars s3)
                  | None => Invalid
                  end
              | _ => Invalid
              end
            else
              match unescape e with
              | Some u => cons_char u (parse_chars s2)
              | None => Invalid
              end
        end
      else if c <? 32 then Invalid
      else cons_char c (parse_chars s1)
  end.

Definition hex_digit (d : N) : N := if d <? 10 then 48 + d else 87 + d.

(** UnicodeEscape: a backslash, [u] and four lowercase hex digits. *)
Definition unicode_escape (c : N) : list N :=
  [92; 117; hex_digit (c / 4096 mod 16); hex_digit (c / 256 mod 16);
   hex_digit (c / 16 mod 16); hex_digit (c mod 16)].

(** One code unit that is not the lead of a surrogate pair. *)
Definition quote_unit (c : N) : list N :=
  if c =? 8 then [92; 98]
  else if c =? 9 then [92; 116]
  else if c =? 10 then [92; 110]
  else if c =? 12 then [92; 102]
  else if c =? 13 then [92; 114]
  else if c =? 34 then [92; 34]
  else if c =? 92 then [92; 92]
  else if (c <? 32) || is_lead c || is_trail c then unicode_escape c
  else [c].

(** QuoteJSONString without the enclosing quotes: the string is read by
    code points, a surrogate pair is copied and a lone surrogate escaped. *)
Fixpoint quote_chars (s : jsstring) : list N :=
  match s with
  | [] => []
  | c :: s1 =>
      if is_lead c then
        match s1 with
        | t :: s2 =>
            if is_trail t then c :: t :: quote_chars s2
            else unicode_escape c ++ quote_chars s1
        | [] => unicode_escape c
        end
      else quote_unit c ++ quote_chars s1
  end.

Definition quote (s : jsstring) : list N := 34 :: quote_chars s ++ [34].

(** *** Values *)

Fixpoint join (parts : list (list N)) : list N :=
  match parts with
  | [] => []
  | [p] => p
  | p :: ps => p ++ 44 :: join ps
  end.

Fixpoint stringify (v : json) : list N :=
  match v with
  | JNull => js "null"
  | JBool true => js "true"
  | JBool false => js "false"
  | JNum n k => print_number n k
  | JStr s => quote s
  | JArr l => 91 :: join (map stringify l) ++ [93]
  | JObj m =>
      123 :: join (map (fun kv => quote (fst kv) ++ 58 :: stringify (snd kv)) m)
          ++ [125]
  end.

(** CreateDataProperty on an object under construction: an existing key
    keeps its place and takes the new value. *)
Fixpoint obj_set (k : jsstring) (v : json) (m : list (jsstring * json))
    : list (jsstring * json) :=
  match m with
  | [] => [(k, v)]
  | (k', v') :: m' =>
      if jsstring_eqb k' k then (k', v) :: m' else (k', v') :: obj_set k v m'
  end.

Definition obj_of_members (kvs : list (jsstring * json)) : list (jsstring * json) :=
  fold_left (fun m kv => obj_set (fst kv) (snd kv) m) kvs [].

Definition keyword (w : string) (v : json) (s : list N) : outcome (json * list N) :=
  let k := js w in
  if jsstring_eqb (firstn (length k) s) k then Parsed (v, skipn (length k) s)
  else Invalid.

(** [parse_value] reads one value after optional white space;
    [parse_elements] the elements of an array that is not empty, up to its
    closing bracket; [parse_members] the members of an object likewise. *)
Fixpoint parse_value (fuel : nat) (s : list N) {struct fuel}
    : outcome (json * list N) :=
  match fuel with
  | O => Exhausted
  | S f =>
      match skip_ws s with
      | [] => Invalid
      | c :: s1 =>
          if c =? 110 then keyword "null" JNull (c :: s1)
          else if c =? 116 then keyword "true" (JBool true) (c :: s1)
          else if c =? 102 then keyword "false" (JBool false) (c :: s1)
          else if c =? 34 then
            obind (parse_chars s1) (fun '(str, r) => Parsed (JStr str, r))
          else if c =? 91 then
            match skip_ws s1 with
            | [] => Invalid
            | c2 :: r =>
                if c2 =? 93 then Parsed (JArr [], r)
                else obind (parse_elements f (c2 :: r))
                       (fun '(l, r') => Parsed (JArr l, r'))
            end
          else if c =? 123 then
            match skip_ws s1 with
            | [] => Invalid
            | c2 :: r =>
                if c2 =? 125 then Parsed (JObj [], r)
                else obind (parse_members f (c2 :: r))
                       (fun '(kvs, r') => Parsed (JObj (obj_of_members kvs), r'))
            end
          else if (c =? 45) || is_digit c then parse_number (c :: s1)
          else Invalid
      end
  end

with parse_elements (fuel : nat) (s : list N) {struct fuel}
    : outcome (list json * list N) :=
  match fuel with
  | O => Exhausted
  | S f =>
      obind (parse_value f s) (fun '(v, s1) =>
      match skip_ws s1 with
      | [] => Invalid
      | c :: s2 =>
          if c =? 44 then
            obind (parse_elements f s2) (fun '(l, r) => Parsed (v :: l, r))
          else if c =? 93 then Parsed ([v], s2)
          else Invalid
      end)
  end

with parse_members (fuel : nat) (s : list N) {struct fuel}
    : outcome (list (jsstring * json) * list N) :=
  match fuel with
  | O => Exhausted
  | S f =>
      match skip_ws s with
      | [] => Invalid
      | q :: s1 =>
          if q =? 34 then
            obind (parse_chars s1) (fun '(k, s2) =>
            match skip_ws s2 with
            | [] => Invalid
            | c :: s3 =>
                if c =? 58 then
                  obind (parse_value f s3) (fun '(v, s4) =>
                  match skip_ws s4 with
                  | [] => Invalid
                  | c' :: s5 =>
                      if c' =? 44 then
                        obind (parse_members f s5)
                          (fun '(kvs, r) => Parsed ((k, v) :: kvs, r))
                      else if c' =? 125 then Parsed ([(k, v)], s5)
                      else Invalid
                  end)
                else Invalid
            end)
          else Invalid
      end
  end.

(** *** Notions used to state what the codec does *)

(** The next character cannot continue a number. *)
Definition ends_number (rest : list N) : Prop :=
  match rest with
  | [] => True
  | c :: _ => is_digit c = false /\ c <> 46 /\ c <> 101 /\ c <> 69
  end.

(** The first character of a printed value opens a value. *)
Definition opens_value (c : N) : Prop :=
  c = 110 \/ c = 116 \/ c = 102 \/ c = 34 \/ c = 91 \/ c = 123 \/ c = 45
  \/ is_digit c = true.

(** A printed value followed by [rest] is read back within a budget of
    the length of its text. *)
Definition read_back (v : json) : Prop :=
  forall (n : nat) (rest : list N),
    (length (stringify v) <= n)%nat -> ends_number rest ->
    parse_value n (stringify v ++ rest) = Parsed (v, rest).

Definition member (kv : jsstring * json) : list N :=
  quote (fst kv) ++ 58 :: stringify (snd kv).

End Codec.

#[local] Unset Elimination Schemes.

(** A value whose numbers are integers and whose objects have no key twice. *)
Inductive plain : json -> Prop :=
| plain_null : plain JNull
| plain_bool (b : bool) : plain (JBool b)
| plain_num (n : Z) : plain (JNum n 0)
| plain_str (s : jsstring) : plain (JStr s)
| plain_arr (l : list json) : Forall plain l -> plain (JArr l)
| plain_obj (m : list (jsstring * json)) :
    NoDup (map fst m) -> Forall (fun kv => plain (snd kv)) m -> plain (JObj m).

#[local] Set Elimination Schemes.

(** What the program can throw and catch. *)
Inductive exn := SyntaxError.

(** [JSON.parse(text)]: one value between optional white space, or a
    SyntaxError.  The parsing functions are given a recursion budget of twice
    the length of the text, which they never use up (lemma
    [CodecBudget.parse_value_budget]). *)

Definition JSON_parse (text : jsstring) : exn + json :=
  match Codec.parse_value (S (2 * length text)) text with
  | Parsed (v, rest) =>
      match Codec.skip_ws rest with
      | [] => inr v
      | _ :: _ => inl SyntaxError
      end
  | Invalid => inl SyntaxError
  | Exhausted => inl SyntaxError
  end.

Definition JSON_stringify (v : json) : jsstring := Codec.stringify v.

(** ** The document as a JavaScript value *)

Module ToJS.

Definition of_personal (p : Personal.t) : json :=
  JObj [ (Personal.key Personal.FirstName, JStr (Personal.firstName p));
         (Personal.key Personal.LastName, JStr (Personal.lastName p));
         (Personal.key Personal.Title, JStr (Personal.title p));
         (Personal.key Personal.Email, JStr (Personal.email p));
         (Personal.key Personal.Phone, JStr (Personal.phone p));
         (Personal.key Personal.Location, JStr (Personal.location p));
         (Personal.key Personal.Linkedin, JStr (Personal.linkedin p));
         (Personal.key Personal.Website, JStr (Personal.website p)) ].

Definition of_experience (e : Experience.t) : json :=
  JObj [ (js "id", JNum (Experience.id e) 0);
         (Experience.key Experience.Title, JStr (Experience.title e));
         (Experience.key Experience.Company, JStr (Experience.company e));
         (Experience.key Experience.Start, JStr (Experience.start e));
         (Experience.key Experience.End, JStr (Experience.end_ e));
         (Experience.key Experience.Description, JStr (Experience.description e)) ].

Definition of_education (e : Education.t) : json :=
  JObj [ (js "id", JNum (Education.id e) 0);
         (Education.key Education.Degree, JStr (Education.degree e));
         (Education.key Education.School, JStr (Education.school e));
         (Education.key Education.Year, JStr (Education.year e)) ].

Definition of_document (d : ResumeDocument) : json :=
  JObj [ (js "personal", of_personal (personal d));
         (js "summary", JStr (summary d));
         (js "skills", JArr (map JStr (skills d)));
         (js "experience", JArr (map of_experience (experience d)));
         (js "education", JArr (map of_education (education d)));
         (js "template", JStr (template d)) ].

End ToJS.

(** Reading a JavaScript value as a fully populated document: every property
    of the data model present with a value of its type.  This is the
    specification's notion of a structurally valid document; the program has
    no such check. *)
Module FromJS.

Fixpoint prop (k : jsstring) (m : list (jsstring * json)) : option json :=
  match m with
  | [] => None
  | (k', v) :: m' => if jsstring_eqb k' k then Some v else prop k m'
  end.

Definition str (k : string) (m : list (jsstring * json)) : option jsstring :=
  match prop (js k) m with
  | Some (JStr s) => Some s
  | _ => None
  end.

Definition num (k : string) (m : list (jsstring * json)) : option Z :=
  match prop (js k) m with
  | Some (JNum n O) => Some n
  | _ => None
  end.

Definition arr (k : string) (m : list (jsstring * json)) : option (list json) :=
  match prop (js k) m with
  | Some (JArr l) => Some l
  | _ => None
  end.

Definition bind {A B} (o : option A) (f : A -> option B) : option B :=
  match o with
  | Some a => f a
  | None => None
  end.

Fixpoint all {A} (f : json -> option A) (l : list json) : option (list A) :=
  match l with
  | [] => Some []
  | v :: l' => bind (f v) (fun a => bind (all f l') (fun r => Some (a :: r)))
  end.

Definition to_string (v : json) : option jsstring :=
  match v with
  | JStr s => Some s
  | _ => None
  end.

Definition to_personal (v : json) : option Personal.t :=
  match v with
  | JObj m =>
      bind (str "firstName" m) (fun a =>
      bind (str "lastName" m) (fun b =>
      bind (str "title" m) (fun c =>
      bind (str "email" m) (fun d =>
      bind (str "phone" m) (fun e =>
      bind (str "location" m) (fun f =>
      bind (str "linkedin" m) (fun g =>
      bind (str "website" m) (fun h =>
      Some (Personal.mk a b c d e f g h)))))))))
  | _ => None
  end.

Definition to_experience (v : json) : option Experience.t :=
  match v with
  | JObj m =>
      bind (num "id" m) (fun i =>
      bind (str "title" m) (fun a =>
      bind (str "company" m) (fun b =>
      bind (str "start" m) (fun c =>
      bind (str "end" m) (fun d =>
      bind (str "description" m) (fun e =>
      Some (Experience.mk i a b c d e)))))))
  | _ => None
  end.

Definition to_education (v : json) : option Education.t :=
  match v with
  | JObj m =>
      bind (num "id" m) (fun i =>
      bind (str "degree" m) (fun a =>
      bind (str "school" m) (fun b =>
      bind (str "year" m) (fun c =>
      Some (Education.mk i a b c)))))
  | _ => None
  end.

Definition to_document (v : json) : option ResumeDocument :=
  match v with
  | JObj m =>
      bind (bind (prop (js "personal") m) to_personal) (fun p =>
      bind (str "summary" m) (fun s =>
      bind (bind (arr "skills" m) (all to_string)) (fun sk =>
      bind (bind (arr "experience" m) (all to_experience)) (fun ex =>
      bind (bind (arr "education" m) (all to_education)) (fun ed =>
      bind (str "template" m) (fun tpl =>
      Some (Doc p s sk ex ed tpl)))))))
  | _ => None
  end.

End FromJS.

(** ** PersistenceAdapter: the draft in [localStorage]

    The store is seen through its one key [wf_resume_draft]: [None] when
    [getItem] returns [null], [Some text] otherwise.  Reads and writes of the
    store succeed. *)

Definition Storage := option jsstring.

Definition getItem (st : Storage) : option jsstring := st.
Definition setItem (value : jsstring) (st : Storage) : Storage := Some value.
Definition removeItem (st : Storage) : Storage := None.

(** [try { body } catch (e) { handler }] *)
Definition try_catch {A} (body : exn + A) (handler : exn -> exn + A) : exn + A :=
  match body with
  | inl e => handler e
  | inr a => inr a
  end.

Section Persistence.

Variables t0 t1 : Z.

(** The body of the [try] in the initializer of [useState]:
    [saved ? JSON.parse(saved) : defaultData]. *)
Definition load_body (st : Storage) : exn + json :=
  match getItem st with
  | Some saved =>
      if truthy saved then JSON_parse saved
      else inr (ToJS.of_document (defaultData t0 t1))
  | None => inr (ToJS.of_document (defaultData t0 t1))
  end.

(** The initializer of [useState]: the state the component starts from. *)
Definition load (st : Storage) : exn + json :=
  try_catch (load_body st) (fun _ => inr (ToJS.of_document (defaultData t0 t1))).

End Persistence.

(** The effect run after [data] has changed. *)
Definition save (data : ResumeDocument) (st : Storage) : Storage :=
  setItem (JSON_stringify (ToJS.of_document data)) st.

(** ** ExportPipeline: the name given to [pdf.save]

    [previewRef] is [previewRef.current]: [None] before the preview is
    mounted.  The result is the argument of [pdf.save] when the handler
    reaches it. *)

#[local] Unset Elimination Schemes.

(** An element of the rendered tree: text, or a tag with its [key], its
    [className] (empty when the source gives none) and its children. *)
Inductive vnode :=
| VText (s : jsstring)
| VElem (tag : string) (key : option Z) (className : string) (children : list vnode).

#[local] Set Elimination Schemes.

Definition downloadPDF (previewRef : option vnode) (data : ResumeDocument)
    : option jsstring :=
  match previewRef with
  | None => None
  | Some _ =>
      Some (js_or (Personal.firstName (personal data)) (js "resume")
            ++ js "-"
            ++ js_or (Personal.lastName (personal data)) (js "resume")
            ++ js ".pdf")
  end.

(** The file name as the specification words it: first and last name joined
    by a hyphen, each replaced by [resume] when empty, then a dot and the
    extension. *)
Definition spec_file_name (firstName lastName ext : jsstring) : jsstring :=
  let or_resume (s : jsstring) :=
    match s with
    | [] => js "resume"
    | _ :: _ => s
    end in
  or_resume firstName ++ js "-" ++ or_resume lastName ++ js "." ++ ext.

(** ** TemplateRenderer: the two template components *)

Definition el (tag className : string) (children : list vnode) : vnode :=
  VElem tag None className children.

Definition txt (s : string) : vnode := VText (js s).

(** The separators of the source: an em dash and a bullet between spaces. *)
Definition dash : jsstring := [32; 8212; 32]%N.
Definition bullet : jsstring := [32; 8226; 32]%N.

(** [arr.map((x, i) => f i x)] *)
Fixpoint mapi {A B} (f : nat -> A -> B) (i : nat) (l : list A) : list B :=
  match l with
  | [] => []
  | x :: l' => f i x :: mapi f (S i) l'
  end.

Definition skill_tag (i : nat) (s : jsstring) : vnode :=
  VElem "span" (Some (Z.of_nat i)) "text-sm px-2 py-1 bg-gray-100 rounded" [VText s].

Definition education_item (ed : Education.t) : vnode :=
  VElem "div" (Some (Education.id ed)) ""
    [ el "div" "font-semibold" [VText (Education.degree ed)];
      el "div" "text-sm text-gray-600"
        [VText (Education.school ed); VText bullet; VText (Education.year ed)] ].

Definition modern_experience_item (exp : Experience.t) : vnode :=
  VElem "div" (Some (Experience.id exp)) ""
    [ el "div" "flex justify-between"
        [ el "div" ""
            [ el "div" "font-semibold" [VText (Experience.title exp)];
              el "div" "text-sm text-gray-600" [VText (Experience.company exp)] ];
          el "div" "text-sm text-gray-600"
            [VText (Experience.start exp); VText dash; VText (Experience.end_ exp)] ];
      el "p" "text-sm text-gray-700 mt-1" [VText (Experience.description exp)] ].

Definition ModernTemplate (data : ResumeDocument) : vnode :=
  let p := personal data in
  el "div" "text-gray-900"
    [ el "div" "flex justify-between items-start gap-4"
        [ el "div" ""
            [ el "h1" "text-3xl font-bold"
                [VText (Personal.firstName p); txt " "; VText (Personal.lastName p)];
              el "h2" "text-md text-gray-600 mt-1" [VText (Personal.title p)] ];
          el "div" "text-sm text-right"
            [ el "div" "" [VText (Personal.email p)];
              el "div" "" [VText (Personal.phone p)];
              el "div" "" [VText (Personal.location p)];
              el "div" "truncate max-w-[200px]" [VText (Personal.linkedin p)];
              el "div" "truncate max-w-[200px]" [VText (Personal.website p)] ] ];
      el "hr" "my-4 border-gray-200" [];
      el "section" "mb-4"
        [ el "h3" "font-semibold" [txt "Summary"];
          el "p" "text-sm text-gray-700 mt-2" [VText (summary data)] ];
      el "div" "grid grid-cols-3 gap-4"
        [ el "div" "col-span-2"
            [ el "section" "mb-4"
                [ el "h3" "font-semibold" [txt "Experience"];
                  el "div" "mt-2 space-y-4"
                    (map modern_experience_item (experience data)) ];
              el "section" ""
                [ el "h3" "font-semibold" [txt "Education"];
                  el "div" "mt-2 space-y-2"
                    (map education_item (education data)) ] ];
          el "aside" "col-span-1"
            [ el "h3" "font-semibold" [txt "Skills"];
              el "div" "mt-2 flex flex-wrap gap-2"
                (mapi skill_tag 0 (skills data)) ] ] ].

Definition classic_experience_item (exp : Experience.t) : vnode :=
  VElem "div" (Some (Experience.id exp)) "flex justify-between"
    [ el "div" ""
        [ el "div" "font-semibold"
            [ VText (Experience.title exp); VText dash;
              el "span" "text-gray-600" [VText (Experience.company exp)] ];
          el "div" "text-sm text-gray-700" [VText (Experience.description exp)] ];
      el "div" "text-sm text-gray-600"
        [VText (Experience.start exp); VText dash; VText (Experience.end_ exp)] ].

Definition ClassicTemplate (data : ResumeDocument) : vnode :=
  let p := personal data in
  el "div" "text-gray-900"
    [ el "div" "text-center"
        [ el "h1" "text-3xl font-bold"
            [VText (Personal.firstName p); txt " "; VText (Personal.lastName p)];
          el "div" "text-sm text-gray-600"
            [VText (Personal.title p); VText bullet; VText (Personal.location p)];
          el "div" "text-sm text-gray-600 mt-1"
            [ VText (Personal.email p); VText bullet; VText (Personal.phone p);
              VText bullet; VText (Personal.linkedin p) ] ];
      el "hr" "my-4 border-gray-200" [];
      el "section" "mb-4"
        [ el "h3" "font-semibold" [txt "Professional Summary"];
          el "p" "text-sm text-gray-700 mt-2" [VText (summary data)] ];
      el "section" "mb-4"
        [ el "h3" "font-semibold" [txt "Experience"];
          el "div" "mt-2 space-y-3"
            (map classic_experience_item (experience data)) ];
      el "section" "mb-4"
        [ el "h3" "font-semibold" [txt "Education"];
          el "div" "mt-2 space-y-2" (map education_item (education data)) ];
      el "section" ""
        [ el "h3" "font-semibold" [txt "Skills"];
          el "div" "mt-2 flex flex-wrap gap-2" (mapi skill_tag 0 (skills data)) ] ].

(** The preview pane: [data.template === 'modern'] picks the template. *)
Definition preview (data : ResumeDocument) : vnode :=
  el "div" "bg-white p-6 rounded-2xl shadow max-w-[850px]"
    [ if jsstring_eqb (template data) (js "modern")
      then ModernTemplate data else ClassicTemplate data ].

(** *** Reading a rendered tree *)

(** The text of a tree, in document order. *)
Fixpoint texts (v : vnode) : list jsstring :=
  match v with
  | VText s => [s]
  | VElem _ _ _ children => flat_map texts children
  end.

(** What an item of a list shows: its [key] and its text. *)
Definition shown (v : vnode) : option Z * list jsstring :=
  match v with
  | VText s => (None, [s])
  | VElem _ k _ _ => (k, texts v)
  end.

(** A heading and the element after it: [<h3>t</h3><x>items</x>]. *)
Definition heading_of (children : list vnode) : option (jsstring * list vnode) :=
  match children with
  | [VElem tag _ _ [VText t]; VElem _ _ _ items] =>
      if String.eqb tag "h3" then Some (t, items) else None
  | _ => None
  end.

(** The items under the heading [h]: the children of the element that
    follows the first [h3] with that text, searched in document order. *)
Fixpoint section_items (h : jsstring) (v : vnode) : option (list vnode) :=
  match v with
  | VText _ => None
  | VElem _ _ _ children =>
      let fix first (l : list vnode) : option (list vnode) :=
        match l with
        | [] => None
        | c :: l' =>
            match section_items h c with
            | Some r => Some r
            | None => first l'
            end
        end in
      match heading_of children with
      | Some (t, items) => if jsstring_eqb t h then Some items else first children
      | None => first children
      end
  end.

(** The search of [section_items] through a list of children. *)
Fixpoint first_section (h : jsstring) (l : list vnode) : option (list vnode) :=
  match l with
  | [] => None
  | c :: l' =>
      match section_items h c with
      | Some r => Some r
      | None => first_section h l'
      end
  end.

(** What each template shows of an entry. *)
Definition modern_experience_shown (e : Experience.t) : option Z * list jsstring :=
  (Some (Experience.id e),
   [Experience.title e; Experience.company e; Experience.start e; dash;
    Experience.end_ e; Experience.description e]).

Definition classic_experience_shown (e : Experience.t) : option Z * list jsstring :=
  (Some (Experience.id e),
   [Experience.title e; dash; Experience.company e; Experience.description e;
    Experience.start e; dash; Experience.end_ e]).

Definition education_shown (e : Education.t) : option Z * list jsstring :=
  (Some (Education.id e),
   [Education.degree e; Education.school e; bullet; Education.year e]).

(** Ids of a collection, in stored order. *)
Definition experience_ids (d : ResumeDocument) : list Z :=
  map Experience.id (experience d).

Definition education_ids (d : ResumeDocument) : list Z :=
  map Education.id (education d).




(** ** Reading a field of an entry by its property name: [exp[field]]. *)

Definition experience_get (f : Experience.field) (exp : Experience.t) : jsstring :=
  match f with
  | Experience.Title => Experience.title exp
  | Experience.Company => Experience.company exp
  | Experience.Start => Experience.start exp
  | Experience.End => Experience.end_ exp
  | Experience.Description => Experience.description exp
  end.

Definition experience_field_eqb (f g : Experience.field) : bool :=
  match f, g with
  | Experience.Title, Experience.Title
  | Experience.Company, Experience.Company
  | Experience.Start, Experience.Start
  | Experience.End, Experience.End
  | Experience.Description, Experience.Description => true
  | _, _ => false
  end.

Definition education_get (f : Education.field) (ed : Education.t) : jsstring :=
  match f with
  | Education.Degree => Education.degree ed
  | Education.School => Education.school ed
  | Education.Year => Education.year ed
  end.

Definition education_field_eqb (f g : Education.field) : bool :=
  match f, g with
  | Education.Degree, Education.Degree
  | Education.School, Education.School
  | Education.Year, Education.Year => true
  | _, _ => false
  end.

(** ** SkillAdder

    [val] is the state of the input.  An event gives the next [val] and the
    argument of [onAdd] when the handler calls it. *)

Module SkillAdder.

Inductive event :=
| Change (value : jsstring)
| KeyDown (key : jsstring)
| Click.

Definition handle (val : jsstring) (e : event) : jsstring * option jsstring :=
  match e with
  | Change value => (value, None)
  | KeyDown key =>
      if jsstring_eqb key (js "Enter") then ([], Some val) else (val, None)
  | Click => if truthy val then ([], Some val) else (val, None)
  end.

(** The component inside the form, [onAdd] being [(s) => addSkill(s)]: the
    document and the input after an event. *)
Definition dispatch (s : ResumeDocument * jsstring) (e : event)
    : ResumeDocument * jsstring :=
  let (data, val) := s in
  let (val', call) := handle val e in
  (match call with
   | Some skill => addSkill skill data
   | None => data
   end, val').

End SkillAdder.

(** ** The template buttons of the form: their [className]. *)
Definition template_button_class (variant : string) (data : ResumeDocument)
    : jsstring :=
  js "btn " ++ (if jsstring_eqb (template data) (js variant)
                then js "btn-primary" else js "btn-outline").

(** What [resetDraft] does to the store: [removeItem] once confirmed. *)
Definition resetDraft_storage (confirmed : bool) (st : Storage) : Storage :=
  if confirmed then removeItem st else st.



(** Every id of both collections is below [b]. *)
Definition ids_below (b : Z) (d : ResumeDocument) : Prop :=
  Forall (fun i => (i < b)%Z) (experience_ids d)
  /\ Forall (fun i => (i < b)%Z) (education_ids d).

(** * Properties *)

(** ** DocumentStore *)

Lemma field_eqb_eq (f g : Personal.field) :
  Personal.field_eqb f g = true <-> f = g.
Proof.
  split.
  - destruct f, g; simpl; intro H; try reflexivity; discriminate H.
  - intros ->. destruct g; reflexivity.
Qed.

Lemma get_set (f g : Personal.field) (v : jsstring) (p : Personal.t) :
  Personal.get g (Personal.set f v p)
  = if Personal.field_eqb g f then v else Personal.get g p.
Proof. destruct f, g; reflexivity. Qed.

(** C9: [setPersonalField(field, value)] replaces that one field of
    [personal]: reading any personal field [g] afterwards gives [value] when
    [g] is [field] and its former content otherwise, and summary, skills,
    experience, education and template are unchanged. *)
Theorem setPersonalField_frame (d : ResumeDocument) (f : Personal.field)
    (v : jsstring) :
  (forall g, Personal.get g (personal (setPersonalField f v d))
             = if Personal.field_eqb g f then v else Personal.get g (personal d))
  /\ summary (setPersonalField f v d) = summary d
  /\ skills (setPersonalField f v d) = skills d
  /\ experience (setPersonalField f v d) = experience d
  /\ education (setPersonalField f v d) = education d
  /\ template (setPersonalField f v d) = template d.
Proof.
  repeat split; try reflexivity.
  intro g. unfold setPersonalField. cbn [personal]. apply get_set.
Qed.

(** C2, as the code has it: [setTemplate(tpl)] stores [tpl] in [template]
    whatever it is, one of the two variants or not, and leaves every other
    field of the document as it was. *)
Theorem setTemplate_stores_any (d : ResumeDocument) (tpl : jsstring) :
  template (setTemplate tpl d) = tpl
  /\ personal (setTemplate tpl d) = personal d
  /\ summary (setTemplate tpl d) = summary d
  /\ skills (setTemplate tpl d) = skills d
  /\ experience (setTemplate tpl d) = experience d
  /\ education (setTemplate tpl d) = education d.
Proof. repeat split. Qed.

(** C2 fails as stated: on the default document [setTemplate("bogus")]
    changes the document, its template becoming ["bogus"]. *)
Lemma setTemplate_bogus_changes :
  let d := defaultData 1700000000000 1700000000000 in
  js "bogus" <> js "modern"
  /\ js "bogus" <> js "classic"
  /\ setTemplate (js "bogus") d <> d
  /\ template (setTemplate (js "bogus") d) <> template d.
Proof.
  cbv zeta. repeat split; discriminate.
Qed.

(** C3, as the code has it: [addSkill("")] leaves the document unchanged,
    and [addSkill] of any non-empty string, white space included, appends it
    to the end of [skills] and changes nothing else. *)
Theorem addSkill_empty_or_append (d : ResumeDocument) :
  addSkill [] d = d
  /\ forall (c : N) (s : jsstring),
       skills (addSkill (c :: s) d) = skills d ++ [c :: s]
       /\ personal (addSkill (c :: s) d) = personal d
       /\ summary (addSkill (c :: s) d) = summary d
       /\ experience (addSkill (c :: s) d) = experience d
       /\ education (addSkill (c :: s) d) = education d
       /\ template (addSkill (c :: s) d) = template d.
Proof. split; [reflexivity | intros c s; repeat split]. Qed.

(** C3 fails as stated: [addSkill("   ")] appends the three spaces to the
    skills of the default document. *)
Lemma addSkill_spaces_appended :
  let d := defaultData 1700000000000 1700000000000 in
  skills (addSkill (js "   ") d) = skills d ++ [js "   "]
  /\ skills (addSkill (js "   ") d) <> skills d.
Proof.
  cbv zeta. split; [reflexivity | discriminate].
Qed.

Lemma update_after_filter (id : Z) (f : Experience.field) (v : jsstring)
    (l : list Experience.t) :
  map (fun exp => if (Experience.id exp =? id)%Z
                  then Experience.set f v exp else exp)
      (filter (fun e => negb (Experience.id e =? id)%Z) l)
  = filter (fun e => negb (Experience.id e =? id)%Z) l.
Proof.
  induction l as [| e l IH]; simpl; [reflexivity |].
  destruct (Experience.id e =? id)%Z eqn:E; simpl.
  - exact IH.
  - rewrite E, IH. reflexivity.
Qed.

(** C7: [removeExperience(id)] followed by [updateExperience(id, field,
    value)] gives the document that [removeExperience(id)] alone gives. *)
Theorem update_after_remove_experience (d : ResumeDocument) (id : Z)
    (f : Experience.field) (v : jsstring) :
  updateExperience id f v (removeExperience id d) = removeExperience id d.
Proof.
  unfold updateExperience, removeExperience, with_experience. cbn [experience
    personal summary skills education template].
  rewrite update_after_filter. reflexivity.
Qed.

Lemma filter_id_gone {A} (key : A -> Z) (id : Z) (l : list A) :
  Forall (fun e => key e <> id) (filter (fun e => negb (key e =? id)%Z) l).
Proof.
  induction l as [| e l IH]; simpl; [constructor |].
  destruct (Z.eqb_spec (key e) id); simpl; [exact IH | constructor; assumption].
Qed.

Lemma filter_id_length {A} (key : A -> Z) (id : Z) (l : list A) :
  length l
  = length (filter (fun e => negb (key e =? id)%Z) l)
    + count_occ Z.eq_dec (map key l) id.
Proof.
  induction l as [| e l IH]; simpl; [reflexivity |].
  destruct (Z.eqb_spec (key e) id) as [E | E]; simpl;
    destruct (Z.eq_dec (key e) id); try contradiction; lia.
Qed.

(** C10: [removeExperience(id)] and [removeEducation(id)] remove every entry
    with that id: no entry of the result has it, and the collection shrinks
    by the number of entries that had it, duplicates included. *)
Theorem remove_deletes_all_matches (d : ResumeDocument) (id : Z) :
  Forall (fun e => Experience.id e <> id) (experience (removeExperience id d))
  /\ length (experience d)
     = length (experience (removeExperience id d))
       + count_occ Z.eq_dec (experience_ids d) id
  /\ Forall (fun e => Education.id e <> id) (education (removeEducation id d))
  /\ length (education d)
     = length (education (removeEducation id d))
       + count_occ Z.eq_dec (education_ids d) id.
Proof.
  unfold removeExperience, removeEducation, experience_ids, education_ids.
  cbn [experience education with_experience with_education].
  repeat split.
  - apply (filter_id_gone Experience.id).
  - apply (filter_id_length Experience.id).
  - apply (filter_id_gone Education.id).
  - apply (filter_id_length Education.id).
Qed.

(** Two entries with one id and a third with another: one call removes both. *)
Example remove_duplicates_at_once :
  let e (i : Z) (t : jsstring) := Experience.mk i t [] [] [] [] in
  let d := with_experience [e 7%Z (js "a"); e 8%Z (js "b"); e 7%Z (js "c")]
             (defaultData 0 0) in
  experience (removeExperience 7 d) = [e 8%Z (js "b")].
Proof. reflexivity. Qed.

Lemma NoDup_twice_at_end (l : list Z) (x : Z) : ~ NoDup ((l ++ [x]) ++ [x]).
Proof.
  intro H. rewrite <- app_assoc in H. simpl in H.
  apply NoDup_remove_2 in H. apply H.
  apply in_or_app. right. left. reflexivity.
Qed.

(** C1 on the code: two [addExperience] calls (or two [addEducation] calls)
    that read the same value of the clock leave two entries with the same id
    in the collection, whatever the document was. *)
Theorem same_clock_duplicate_ids (d : ResumeDocument) (now : Z) :
  ~ NoDup (experience_ids (addExperience now (addExperience now d)))
  /\ ~ NoDup (education_ids (addEducation now (addEducation now d))).
Proof.
  unfold experience_ids, education_ids, addExperience, addEducation.
  cbn [experience education with_experience with_education].
  rewrite !map_app. simpl. split; apply NoDup_twice_at_end.
Qed.

(** The same from the default document, as a run of the store. *)
Example same_clock_duplicate_run :
  let t := 1700000000000%Z in
  experience_ids (run t t [AddExperience (t + 5); AddExperience (t + 5)]
                      (defaultData t t))
  = [t; t + 5; t + 5]%Z.
Proof. reflexivity. Qed.

(** What the timestamp ids do give: as long as every clock reading is fresh
    for the collection it is added to, ids stay unique along any run. *)








(** ** ExportPipeline *)

(** C8: when the handler reaches [pdf.save], the file is named by first and
    last name joined by a hyphen with the extension [pdf], an empty name
    being replaced by [resume]; with both names empty the name is
    [resume-resume.pdf]. *)
Theorem export_file_name (node : vnode) (d : ResumeDocument) :
  downloadPDF (Some node) d
  = Some (spec_file_name (Personal.firstName (personal d))
                         (Personal.lastName (personal d)) (js "pdf"))
  /\ forall ti em ph lo li we su sk ex ed tpl,
       downloadPDF (Some node)
         (Doc (Personal.mk [] [] ti em ph lo li we) su sk ex ed tpl)
       = Some (js "resume-resume.pdf").
Proof.
  split; [| reflexivity].
  unfold downloadPDF, spec_file_name, js_or.
  destruct (Personal.firstName (personal d)), (Personal.lastName (personal d));
    reflexivity.
Qed.

(** ** TemplateRenderer *)

Lemma section_items_elem (h : jsstring) (tag : string) (k : option Z)
    (c : string) (l : list vnode) :
  section_items h (VElem tag k c l)
  = match heading_of l with
    | Some (t, items) =>
        if jsstring_eqb t h then Some items else first_section h l
    | None => first_section h l
    end.
Proof.
  cbn [section_items].
  assert (E : forall l',
    (fix first (l0 : list vnode) : option (list vnode) :=
       match l0 with
       | [] => None
       | c0 :: l'0 =>
           match section_items h c0 with
           | Some r => Some r
           | None => first l'0
           end
       end) l' = first_section h l').
  { induction l' as [| x l' IH]; simpl; [reflexivity |].
    destruct (section_items h x); [reflexivity | exact IH]. }
  rewrite E. reflexivity.
Qed.

Lemma first_section_none {A} (h : jsstring) (item : A -> vnode) (l : list A) :
  (forall a, section_items h (item a) = None) ->
  first_section h (map item l) = None.
Proof.
  intro H. induction l as [| a l IH]; simpl; [reflexivity |].
  rewrite H. exact IH.
Qed.

Lemma no_section_in_modern_item (h : jsstring) (e : Experience.t) :
  section_items h (modern_experience_item e) = None.
Proof. reflexivity. Qed.

Lemma no_section_in_classic_item (h : jsstring) (e : Experience.t) :
  section_items h (classic_experience_item e) = None.
Proof. reflexivity. Qed.

Lemma no_section_in_education_item (h : jsstring) (e : Education.t) :
  section_items h (education_item e) = None.
Proof. reflexivity. Qed.

Lemma section_items_text (h s : jsstring) : section_items h (VText s) = None.
Proof. reflexivity. Qed.

Lemma heading_of_modern_items (l : list Experience.t) :
  heading_of (map modern_experience_item l) = None.
Proof. destruct l as [| a [| b [| c l]]]; reflexivity. Qed.

Lemma heading_of_classic_items (l : list Experience.t) :
  heading_of (map classic_experience_item l) = None.
Proof. destruct l as [| a [| b [| c l]]]; reflexivity. Qed.

Lemma heading_of_education_items (l : list Education.t) :
  heading_of (map education_item l) = None.
Proof. destruct l as [| a [| b [| c l]]]; reflexivity. Qed.

Ltac decide_heading :=
  match goal with
  | |- context [jsstring_eqb (js ?a) (js ?b)] =>
      let r := eval vm_compute in (jsstring_eqb (js a) (js b)) in
      change (jsstring_eqb (js a) (js b)) with r
  end.

Ltac search_section :=
  repeat first
    [ rewrite section_items_text
    | rewrite heading_of_modern_items
    | rewrite heading_of_classic_items
    | rewrite heading_of_education_items
    | rewrite (first_section_none _ modern_experience_item)
        by apply no_section_in_modern_item
    | rewrite (first_section_none _ classic_experience_item)
        by apply no_section_in_classic_item
    | rewrite (first_section_none _ education_item)
        by apply no_section_in_education_item
    | rewrite section_items_elem
    | decide_heading
    | progress cbn [heading_of first_section String.eqb Ascii.eqb Bool.eqb] ].

Lemma shown_modern (l : list Experience.t) :
  map shown (map modern_experience_item l) = map modern_experience_shown l.
Proof. rewrite map_map. apply map_ext. intro e. reflexivity. Qed.

Lemma shown_classic (l : list Experience.t) :
  map shown (map classic_experience_item l) = map classic_experience_shown l.
Proof. rewrite map_map. apply map_ext. intro e. reflexivity. Qed.

Lemma shown_education (l : list Education.t) :
  map shown (map education_item l) = map education_shown l.
Proof. rewrite map_map. apply map_ext. intro e. reflexivity. Qed.

(** C6: in the tree of either template the items under the heading
    [Experience] are the entries of [experience] in stored order, each with
    its id as key and its text fields, and likewise under [Education]; an
    empty collection gives a section with no items. *)
Theorem templates_show_all_entries (d : ResumeDocument) :
  option_map (map shown) (section_items (js "Experience") (ModernTemplate d))
  = Some (map modern_experience_shown (experience d))
  /\ option_map (map shown) (section_items (js "Education") (ModernTemplate d))
     = Some (map education_shown (education d))
  /\ option_map (map shown) (section_items (js "Experience") (ClassicTemplate d))
     = Some (map classic_experience_shown (experience d))
  /\ option_map (map shown) (section_items (js "Education") (ClassicTemplate d))
     = Some (map education_shown (education d)).
Proof.
  unfold ModernTemplate, ClassicTemplate, el, txt.
  repeat split; search_section; cbn [option_map]; f_equal.
  - apply shown_modern.
  - apply shown_education.
  - apply shown_classic.
  - apply shown_education.
Qed.

(** With nothing stored in a collection its section has no items. *)
Example empty_sections_render :
  let d := with_education [] (with_experience [] (defaultData 0 0)) in
  section_items (js "Experience") (ModernTemplate d) = Some []
  /\ section_items (js "Education") (ModernTemplate d) = Some []
  /\ section_items (js "Experience") (ClassicTemplate d) = Some []
  /\ section_items (js "Education") (ClassicTemplate d) = Some [].
Proof. repeat split. Qed.

(** ** The codec: what is printed is read back *)

Lemma json_induction (P : json -> Prop) :
  P JNull ->
  (forall b, P (JBool b)) ->
  (forall n k, P (JNum n k)) ->
  (forall s, P (JStr s)) ->
  (forall l, Forall P l -> P (JArr l)) ->
  (forall m, Forall (fun kv => P (snd kv)) m -> P (JObj m)) ->
  forall v, P v.
Proof.
  intros Hnull Hbool Hnum Hstr Harr Hobj.
  fix IH 1. intros [| b | n k | s | l | m].
  - exact Hnull.
  - apply Hbool.
  - apply Hnum.
  - apply Hstr.
  - apply Harr. induction l as [| v l IHl]; constructor; [apply IH | exact IHl].
  - apply Hobj. induction m as [| [k v] m IHm]; constructor;
      [apply IH | exact IHm].
Qed.

Lemma jsstring_eqb_eq (a b : jsstring) : jsstring_eqb a b = true <-> a = b.
Proof.
  revert b. induction a as [| x a IH]; intros [| y b]; simpl;
    try (split; [discriminate | discriminate]); [tauto |].
  rewrite andb_true_iff, N.eqb_eq, IH. split.
  - intros [-> ->]. reflexivity.
  - intro H. injection H as -> ->. split; reflexivity.
Qed.

Module CodecFacts.

Import Codec.
Local Open Scope N_scope.


Lemma read_digits_chars (u : Decimal.uint) (rest : list N) :
  ends_number rest -> read_digits (uint_chars u ++ rest) = (u, rest).
Proof.
  intro H. induction u; simpl;
    try (rewrite IHu; reflexivity).
  destruct rest as [| c r]; [reflexivity |].
  simpl in *. destruct H as [-> _]. reflexivity.
Qed.

Lemma to_uint_normal (n : N) : Decimal.unorm (N.to_uint n) = N.to_uint n.
Proof.
  rewrite <- (DecimalN.Unsigned.of_to n) at 2.
  symmetry. apply DecimalN.Unsigned.to_of.
Qed.

Lemma int_ok_normal (u : Decimal.uint) : Decimal.unorm u = u -> int_ok u = true.
Proof.
  intro H.
  destruct u as [| u | u | u | u | u | u | u | u | u | u]; try reflexivity.
  - pose proof (DecimalFacts.unorm_nonnil Decimal.Nil) as Hn.
    rewrite H in Hn. contradiction.
  - rewrite DecimalFacts.unorm_D0 in H.
    destruct (Decimal.uint_eq_dec (Decimal.nzhead u) Decimal.Nil) as [E | E].
    + apply DecimalFacts.unorm_0 in E. rewrite E in H.
      injection H as <-. reflexivity.
    + rewrite (@DecimalFacts.unorm_nzhead _ E) in H.
      exfalso. exact (DecimalFacts.nzhead_nonzero _ _ H).
Qed.

Lemma int_ok_to_uint (n : N) : int_ok (N.to_uint n) = true.
Proof. apply int_ok_normal, to_uint_normal. Qed.

Lemma parse_sign_digits (u : Decimal.uint) (rest : list N) :
  int_ok u = true ->
  parse_sign false (uint_chars u ++ rest) = (false, uint_chars u ++ rest).
Proof. destruct u; simpl; intro H; try reflexivity; discriminate H. Qed.

Lemma parse_fraction_none (rest : list N) :
  ends_number rest -> parse_fraction rest = Parsed (Decimal.Nil, rest).
Proof.
  destruct rest as [| c r]; simpl; [reflexivity |].
  intros (_ & H & _). apply N.eqb_neq in H. rewrite H. reflexivity.
Qed.

Lemma parse_exponent_none (rest : list N) :
  ends_number rest -> parse_exponent rest = Parsed (0%Z, rest).
Proof.
  destruct rest as [| c r]; simpl; [reflexivity |].
  intros (_ & _ & H1 & H2). apply N.eqb_neq in H1, H2. rewrite H1, H2.
  reflexivity.
Qed.

Lemma number_value_integer (neg : bool) (a : N) :
  number_value neg (N.to_uint a) Decimal.Nil 0
  = JNum (if neg then - Z.of_N a else Z.of_N a) 0.
Proof.
  unfold number_value. rewrite DecimalFacts.app_nil_r, DecimalN.Unsigned.of_to.
  cbn. f_equal. destruct neg; lia.
Qed.

Lemma parse_print_number (n : Z) (rest : list N) :
  ends_number rest ->
  parse_number (print_number n 0 ++ rest) = Parsed (JNum n 0, rest).
Proof.
  intro H. unfold print_number, parse_number.
  destruct (Z.ltb_spec n 0) as [Hn | Hn].
  - cbn [app parse_sign N.eqb Pos.eqb].
    rewrite read_digits_chars, int_ok_to_uint by exact H.
    rewrite parse_fraction_none by exact H. cbn [obind].
    rewrite parse_exponent_none by exact H. cbn [obind].
    rewrite number_value_integer, N2Z.inj_abs_N. do 3 f_equal. lia.
  - cbn [app].
    rewrite parse_sign_digits by apply int_ok_to_uint.
    rewrite read_digits_chars, int_ok_to_uint by exact H.
    rewrite parse_fraction_none by exact H. cbn [obind].
    rewrite parse_exponent_none by exact H. cbn [obind].
    rewrite number_value_integer, N2Z.inj_abs_N. do 3 f_equal. lia.
Qed.

(** *** Strings *)

Lemma hex_val_digit (d : N) : d < 16 -> hex_val (hex_digit d) = Some d.
Proof.
  intro H. unfold hex_digit, hex_val, is_digit.
  destruct (N.ltb_spec d 10).
  - replace (48 <=? 48 + d) with true by (symmetry; apply N.leb_le; lia).
    replace (48 + d <=? 57) with true by (symmetry; apply N.leb_le; lia).
    cbn [andb]. f_equal. lia.
  - replace (87 + d <=? 57) with false by (symmetry; apply N.leb_gt; lia).
    rewrite andb_false_r.
    replace (97 <=? 87 + d) with true by (symmetry; apply N.leb_le; lia).
    replace (87 + d <=? 102) with true by (symmetry; apply N.leb_le; lia).
    cbn [andb]. f_equal. lia.
Qed.

Lemma hex4_escape (c : N) :
  c < 65536 ->
  hex4 (hex_digit (c / 4096 mod 16)) (hex_digit (c / 256 mod 16))
       (hex_digit (c / 16 mod 16)) (hex_digit (c mod 16)) = Some c.
Proof.
  intro H. unfold hex4.
  rewrite !hex_val_digit by (apply N.mod_lt; discriminate).
  f_equal.
  pose proof (N.div_mod c 4096). pose proof (N.div_mod c 256).
  pose proof (N.div_mod c 16).
  assert (c / 4096 < 16) by (apply N.Div0.div_lt_upper_bound; lia).
  rewrite (N.mod_small (c / 4096) 16) by assumption.
  assert (E1 : c / 256 = 16 * (c / 4096) + c / 256 mod 16).
  { replace 4096 with (256 * 16) by reflexivity.
    rewrite <- N.Div0.div_div.
    apply N.div_mod. discriminate. }
  assert (E2 : c / 16 = 16 * (c / 256) + c / 16 mod 16).
  { replace 256 with (16 * 16) by reflexivity.
    rewrite <- N.Div0.div_div.
    apply N.div_mod. discriminate. }
  assert (E3 : c = 16 * (c / 16) + c mod 16) by (apply N.div_mod; discriminate).
  lia.
Qed.

Lemma parse_unicode_escape (c : N) (tail : list N) :
  c < 65536 ->
  parse_chars (unicode_escape c ++ tail) = cons_char c (parse_chars tail).
Proof.
  intro H. unfold unicode_escape. cbn [app parse_chars N.eqb Pos.eqb].
  rewrite hex4_escape by exact H. reflexivity.
Qed.

Lemma parse_chars_literal (c : N) (tail : list N) :
  c <> 34 -> c <> 92 -> 32 <= c ->
  parse_chars (c :: tail) = cons_char c (parse_chars tail).
Proof.
  intros H1 H2 H3. cbn [parse_chars].
  apply N.eqb_neq in H1, H2. rewrite H1, H2.
  replace (c <? 32) with false by (symmetry; apply N.ltb_ge; exact H3).
  reflexivity.
Qed.

Lemma lead_bounds (c : N) : is_lead c = true -> 55296 <= c <= 56319.
Proof.
  unfold is_lead. intro H. apply andb_prop in H. destruct H as [H1 H2].
  apply N.leb_le in H1, H2. lia.
Qed.

Lemma trail_bounds (c : N) : is_trail c = true -> 56320 <= c <= 57343.
Proof.
  unfold is_trail. intro H. apply andb_prop in H. destruct H as [H1 H2].
  apply N.leb_le in H1, H2. lia.
Qed.

Lemma parse_quote_unit (c : N) (tail : list N) :
  parse_chars (quote_unit c ++ tail) = cons_char c (parse_chars tail).
Proof.
  unfold quote_unit.
  destruct (N.eqb_spec c 8); [subst; reflexivity |].
  destruct (N.eqb_spec c 9); [subst; reflexivity |].
  destruct (N.eqb_spec c 10); [subst; reflexivity |].
  destruct (N.eqb_spec c 12); [subst; reflexivity |].
  destruct (N.eqb_spec c 13); [subst; reflexivity |].
  destruct (N.eqb_spec c 34); [subst; reflexivity |].
  destruct (N.eqb_spec c 92); [subst; reflexivity |].
  destruct ((c <? 32) || is_lead c || is_trail c) eqn:E.
  - apply parse_unicode_escape.
    apply orb_prop in E. destruct E as [E | E].
    + apply orb_prop in E. destruct E as [E | E].
      * apply N.ltb_lt in E. lia.
      * apply lead_bounds in E. lia.
    + apply trail_bounds in E. lia.
  - apply orb_false_elim in E. destruct E as [E _].
    apply orb_false_elim in E. destruct E as [E _].
    apply N.ltb_ge in E. now apply parse_chars_literal.
Qed.

Lemma quote_chars_cons (c : N) (s1 : jsstring) :
  quote_chars (c :: s1)
  = if is_lead c then
      match s1 with
      | t :: s2 =>
          if is_trail t then c :: t :: quote_chars s2
          else unicode_escape c ++ quote_chars s1
      | [] => unicode_escape c
      end
    else quote_unit c ++ quote_chars s1.
Proof. reflexivity. Qed.

Lemma parse_quote_chars_upto (n : nat) :
  forall (s : jsstring) (rest : list N),
    (length s <= n)%nat ->
    parse_chars (quote_chars s ++ 34 :: rest) = Parsed (s, rest).
Proof.
  induction n as [| n IH]; intros s rest Hlen.
  - destruct s; [reflexivity | simpl in Hlen; lia].
  - destruct s as [| c s1]; [reflexivity |].
    simpl in Hlen. rewrite quote_chars_cons.
    destruct (is_lead c) eqn:L.
    + pose proof (@lead_bounds _ L) as Lb.
      destruct s1 as [| t s2].
      * rewrite parse_unicode_escape by lia. reflexivity.
      * destruct (is_trail t) eqn:T.
        -- pose proof (@trail_bounds _ T) as Tb. cbn [app].
           rewrite parse_chars_literal by lia.
           rewrite parse_chars_literal by lia.
           rewrite IH by (simpl in Hlen; lia). reflexivity.
        -- rewrite <- app_assoc, parse_unicode_escape by lia.
           rewrite IH by lia. reflexivity.
    + rewrite <- app_assoc, parse_quote_unit.
      rewrite IH by lia. reflexivity.
Qed.

Lemma parse_quote_chars (s : jsstring) (rest : list N) :
  parse_chars (quote_chars s ++ 34 :: rest) = Parsed (s, rest).
Proof. apply (@parse_quote_chars_upto (length s)). apply Nat.le_refl. Qed.

(** *** Values *)

Lemma obj_set_new (k : jsstring) (v : json) (m : list (jsstring * json)) :
  ~ In k (map fst m) -> obj_set k v m = m ++ [(k, v)].
Proof.
  induction m as [| [k' v'] m IH]; simpl; intro H; [reflexivity |].
  destruct (jsstring_eqb k' k) eqn:E.
  - apply jsstring_eqb_eq in E. exfalso. apply H. left. exact E.
  - rewrite IH by tauto. reflexivity.
Qed.

Lemma obj_of_members_from (kvs acc : list (jsstring * json)) :
  NoDup (map fst (acc ++ kvs)) ->
  fold_left (fun m kv => obj_set (fst kv) (snd kv) m) kvs acc = acc ++ kvs.
Proof.
  revert acc. induction kvs as [| [k v] kvs IH]; intros acc H; simpl.
  - now rewrite app_nil_r.
  - rewrite obj_set_new.
    + rewrite IH; rewrite <- app_assoc; [reflexivity | exact H].
    + rewrite map_app in H. simpl in H. apply NoDup_remove_2 in H.
      intro Hin. apply H. apply in_or_app. left. exact Hin.
Qed.

Lemma obj_of_members_nodup (kvs : list (jsstring * json)) :
  NoDup (map fst kvs) -> obj_of_members kvs = kvs.
Proof. intro H. apply (obj_of_members_from kvs []). exact H. Qed.


Lemma uint_chars_head (u : Decimal.uint) :
  int_ok u = true ->
  exists c tl, uint_chars u = c :: tl /\ is_digit c = true.
Proof.
  destruct u; simpl; intro H; try discriminate H; eexists; eexists;
    (split; [reflexivity | reflexivity]).
Qed.

Lemma print_number_head (n : Z) :
  exists c tl, print_number n 0 = c :: tl /\ (c = 45 \/ is_digit c = true).
Proof.
  unfold print_number. destruct (n <? 0)%Z.
  - eexists; eexists. split; [reflexivity | left; reflexivity].
  - destruct (@uint_chars_head _ (int_ok_to_uint (Z.abs_N n))) as (c & tl & E & D).
    exists c, tl. split; [exact E | right; exact D].
Qed.

Lemma stringify_head (v : json) :
  plain v -> exists c tl, stringify v = c :: tl /\ opens_value c.
Proof.
  unfold opens_value. intro H. destruct H as [| [|] | n | s | l Hl | m Hk Hm].
  - eexists; eexists; split; [reflexivity | tauto].
  - eexists; eexists; split; [reflexivity | tauto].
  - eexists; eexists; split; [reflexivity | tauto].
  - destruct (print_number_head n) as (c & tl & E & [D | D]);
      exists c, tl; (split; [exact E | tauto]).
  - eexists; eexists; split; [reflexivity | tauto].
  - eexists; eexists; split; [reflexivity | tauto].
  - eexists; eexists; split; [reflexivity | tauto].
Qed.

Lemma digit_bounds (c : N) : is_digit c = true -> 48 <= c <= 57.
Proof.
  unfold is_digit. intro H. apply andb_prop in H. destruct H as [H1 H2].
  apply N.leb_le in H1, H2. lia.
Qed.

Lemma opens_value_not_ws (c : N) : opens_value c -> is_ws c = false.
Proof.
  unfold opens_value, is_ws.
  intros [-> | [-> | [-> | [-> | [-> | [-> | [-> | H]]]]]]]; try reflexivity.
  apply digit_bounds in H.
  repeat (apply orb_false_intro); apply N.eqb_neq; lia.
Qed.

Lemma opens_value_not_close (c : N) : opens_value c -> (c =? 93) = false.
Proof.
  unfold opens_value.
  intros [-> | [-> | [-> | [-> | [-> | [-> | [-> | H]]]]]]]; try reflexivity.
  apply digit_bounds in H. apply N.eqb_neq. lia.
Qed.


Lemma join_cons (p : list N) (ps : list (list N)) :
  join (p :: ps) = match ps with [] => p | _ :: _ => p ++ 44 :: join ps end.
Proof. reflexivity. Qed.

Lemma ends_number_comma (r : list N) : ends_number (44 :: r).
Proof. cbn. repeat split; discriminate. Qed.

Lemma ends_number_bracket (r : list N) : ends_number (93 :: r).
Proof. cbn. repeat split; discriminate. Qed.

Lemma ends_number_brace (r : list N) : ends_number (125 :: r).
Proof. cbn. repeat split; discriminate. Qed.

Lemma parse_elements_join (l : list json) :
  Forall read_back l -> l <> [] ->
  forall (f : nat) (rest : list N),
    (length (join (map stringify l)) + 1 <= f)%nat ->
    parse_elements f (join (map stringify l) ++ 93 :: rest) = Parsed (l, rest).
Proof.
  induction 1 as [| v l Hv Hl IH]; intros Hne f rest Hf; [contradiction |].
  cbn [map] in *. rewrite join_cons in *.
  destruct f as [| f]; [lia |]. cbn [parse_elements].
  destruct l as [| w l].
  - cbn [map] in *. rewrite (Hv f (93 :: rest)) by (lia || apply ends_number_bracket).
    reflexivity.
  - remember (w :: l) as l' eqn:El.
    assert (Hl' : l' <> []) by (subst; discriminate).
    replace (map stringify l') with (stringify w :: map stringify l) in *
      by (subst; reflexivity).
    rewrite length_app in Hf. cbn [length] in Hf.
    rewrite <- app_assoc. cbn [app].
    rewrite (Hv f) by (lia || apply ends_number_comma).
    cbn [obind skip_ws is_ws N.eqb Pos.eqb orb].
    replace (stringify w :: map stringify l) with (map stringify l') in *
      by (subst; reflexivity).
    rewrite (IH Hl' f rest) by lia. reflexivity.
Qed.

Lemma parse_member (kv : jsstring * json) (f : nat) (tail : list N) :
  read_back (snd kv) -> (length (member kv) <= f)%nat -> ends_number tail ->
  parse_members (S f) (member kv ++ tail)
  = match skip_ws tail with
    | [] => Invalid
    | c' :: s5 =>
        if c' =? 44 then
          obind (parse_members f s5)
            (fun '(kvs, r) => Parsed (kv :: kvs, r))
        else if c' =? 125 then Parsed ([kv], s5)
        else Invalid
    end.
Proof.
  destruct kv as [k v]. unfold member, quote. cbn [fst snd].
  intros Hv Hf Ht.
  cbn [parse_members app skip_ws is_ws N.eqb Pos.eqb orb].
  rewrite <- !app_assoc. cbn [app].
  rewrite parse_quote_chars.
  cbn [obind skip_ws is_ws N.eqb Pos.eqb orb].
  cbn [length] in Hf. rewrite !length_app in Hf. cbn [length] in Hf.
  rewrite (Hv f tail) by (lia || exact Ht).
  reflexivity.
Qed.

Lemma parse_members_join (m : list (jsstring * json)) :
  Forall (fun kv => read_back (snd kv)) m -> m <> [] ->
  forall (f : nat) (rest : list N),
    (length (join (map member m)) + 1 <= f)%nat ->
    parse_members f (join (map member m) ++ 125 :: rest) = Parsed (m, rest).
Proof.
  induction 1 as [| kv m Hv Hm IH]; intros Hne f rest Hf; [contradiction |].
  cbn [map] in *. rewrite join_cons in *.
  destruct f as [| f]; [lia |].
  destruct m as [| kw m].
  - cbn [map] in *.
    rewrite parse_member by (assumption || lia || apply ends_number_brace).
    reflexivity.
  - remember (kw :: m) as m' eqn:Em.
    assert (Hm' : m' <> []) by (subst; discriminate).
    replace (map member m') with (member kw :: map member m) in *
      by (subst; reflexivity).
    rewrite length_app in Hf. cbn [length] in Hf.
    rewrite <- app_assoc. cbn [app].
    rewrite parse_member by (assumption || lia || apply ends_number_comma).
    cbn [skip_ws is_ws N.eqb Pos.eqb orb].
    replace (member kw :: map member m) with (map member m') in *
      by (subst; reflexivity).
    rewrite (IH Hm' f rest) by lia. reflexivity.
Qed.

Lemma read_back_number (n : Z) : read_back (JNum n 0).
Proof.
  intros f rest Hf Hr. cbn [stringify] in *.
  destruct (print_number_head n) as (c & tl & E & D).
  destruct f as [| f]; [rewrite E in Hf; simpl in Hf; lia |].
  pose proof (@parse_print_number n rest Hr) as P.
  rewrite E in *. cbn [app parse_value skip_ws] in *.
  assert (O : opens_value c) by (unfold opens_value; tauto).
  rewrite (@opens_value_not_ws _ O).
  destruct D as [-> | D]; [exact P |].
  pose proof (@digit_bounds _ D) as B.
  repeat match goal with
         | |- context [c =? ?k] =>
             replace (c =? k) with false by (symmetry; apply N.eqb_neq; lia)
         end.
  rewrite D. cbn [orb]. exact P.
Qed.

(** Every plain value is read back from its text. *)
Lemma plain_read_back (v : json) : plain v -> read_back v.
Proof.
  induction v as [| b | n k | s | l IH | m IH] using json_induction; intro Hp.
  - intros [| f] rest Hf _; [simpl in Hf; lia | reflexivity].
  - intros [| f] rest Hf _; [destruct b; simpl in Hf; lia |].
    destruct b; reflexivity.
  - inversion Hp; subst. apply read_back_number.
  - intros [| f] rest Hf _; [simpl in Hf; lia |].
    cbn [stringify]. unfold quote.
    cbn [parse_value app skip_ws is_ws N.eqb Pos.eqb orb].
    rewrite <- app_assoc. cbn [app]. rewrite parse_quote_chars. reflexivity.
  - inversion Hp as [| | | | l' Hl |]; subst.
    assert (R : Forall read_back l).
    { clear Hp. induction IH as [| v l Hv _ IHl]; [constructor |].
      inversion Hl; subst. constructor; [now apply Hv | now apply IHl]. }
    intros [| f] rest Hf _; [simpl in Hf; lia |].
    cbn [stringify] in *.
    cbn [parse_value app skip_ws is_ws N.eqb Pos.eqb orb].
    destruct l as [| v l]; [reflexivity |].
    remember (v :: l) as l' eqn:El.
    assert (Hne : l' <> []) by (subst; discriminate).
    assert (Hv : plain v) by (subst; inversion Hl; assumption).
    destruct (@stringify_head _ Hv) as (c & tl & E & O).
    assert (E' : exists tl', join (map stringify l') = c :: tl').
    { subst l'. cbn [map]. rewrite join_cons, E.
      destruct (map stringify l); eexists; reflexivity. }
    destruct E' as (tl' & E').
    cbn [length] in Hf. rewrite length_app in Hf. cbn [length] in Hf.
    pose proof (@parse_elements_join _ R Hne f rest) as P.
    rewrite <- app_assoc. cbn [app].
    rewrite E' in *. cbn [app skip_ws] in *.
    rewrite (@opens_value_not_ws _ O), (@opens_value_not_close _ O).
    rewrite P by lia. reflexivity.
  - inversion Hp as [| | | | | m' Hk Hm]; subst.
    assert (R : Forall (fun kv => read_back (snd kv)) m).
    { clear Hp Hk. induction IH as [| kv m Hv _ IHm]; [constructor |].
      inversion Hm; subst. constructor; [now apply Hv | now apply IHm]. }
    intros [| f] rest Hf _; [simpl in Hf; lia |].
    cbn [stringify] in *. fold member in *.
    cbn [parse_value app skip_ws is_ws N.eqb Pos.eqb orb].
    destruct m as [| kv m]; [reflexivity |].
    remember (kv :: m) as m' eqn:Em.
    assert (Hne : m' <> []) by (subst; discriminate).
    assert (E' : exists tl', join (map member m') = 34 :: tl').
    { subst m'. cbn [map]. rewrite join_cons.
      destruct (map member m); unfold member, quote; cbn [app];
        eexists; reflexivity. }
    destruct E' as (tl' & E').
    cbn [length] in Hf. rewrite length_app in Hf. cbn [length] in Hf.
    pose proof (@parse_members_join _ R Hne f rest) as P.
    rewrite <- app_assoc. cbn [app].
    rewrite E' in *. cbn [app skip_ws is_ws N.eqb Pos.eqb orb] in *.
    rewrite P by lia. cbn [obind].
    rewrite obj_of_members_nodup by exact Hk. reflexivity.
Qed.

End CodecFacts.

(** ** The codec: the budget of [JSON_parse] is never used up *)

Module CodecBudget.

Import Codec.
Local Open Scope N_scope.

Lemma skip_ws_length (s : list N) : (length (skip_ws s) <= length s)%nat.
Proof.
  induction s as [| c s IH]; simpl; [lia |].
  destruct (is_ws c); simpl; lia.
Qed.

Lemma skip_ws_cons (s : list N) (c : N) (r : list N) :
  skip_ws s = c :: r -> (length r < length s)%nat.
Proof.
  intro H. pose proof (skip_ws_length s) as L. rewrite H in L. simpl in L. lia.
Qed.

Lemma read_digits_length (s : list N) :
  (length (snd (read_digits s)) <= length s)%nat
  /\ (fst (read_digits s) <> Decimal.Nil ->
      (length (snd (read_digits s)) < length s)%nat).
Proof.
  induction s as [| c s [IH _]]; simpl; [split; [lia | congruence] |].
  destruct (is_digit c); [| simpl; split; [lia | congruence]].
  destruct (read_digits s) as [u r]. simpl in *. split; intros; lia.
Qed.

Lemma int_ok_nonnil (u : Decimal.uint) : int_ok u = true -> u <> Decimal.Nil.
Proof. destruct u; simpl; congruence. Qed.

Lemma parse_sign_length (plus : bool) (s : list N) :
  (length (snd (parse_sign plus s)) <= length s)%nat.
Proof.
  destruct s as [| c s]; simpl; [lia |].
  destruct (c =? 45); [simpl; lia |].
  destruct (plus && (c =? 43)); simpl; lia.
Qed.

Lemma parse_fraction_length (s : list N) :
  parse_fraction s <> Exhausted
  /\ forall fp r, parse_fraction s = Parsed (fp, r) -> (length r <= length s)%nat.
Proof.
  destruct s as [| c s]; simpl.
  - split; [discriminate |]. intros fp r H. injection H as _ <-. simpl. lia.
  - destruct (c =? 46).
    + pose proof (read_digits_length s) as [L _].
      destruct (read_digits s) as [u r0]. simpl in L.
      destruct u; (split; [discriminate |]); intros fp r H;
        try discriminate H; injection H as _ <-; simpl; lia.
    + split; [discriminate |]. intros fp r H. injection H as _ <-. simpl. lia.
Qed.

Lemma parse_exponent_length (s : list N) :
  parse_exponent s <> Exhausted
  /\ forall e r, parse_exponent s = Parsed (e, r) -> (length r <= length s)%nat.
Proof.
  destruct s as [| c s]; simpl.
  - split; [discriminate |]. intros e r H. injection H as _ <-. simpl. lia.
  - destruct ((c =? 101) || (c =? 69)).
    + pose proof (parse_sign_length true s) as L1.
      destruct (parse_sign true s) as [eneg s2]. simpl in L1.
      pose proof (read_digits_length s2) as [L2 _].
      destruct (read_digits s2) as [u r0]. simpl in L2.
      destruct u; (split; [discriminate |]); intros e r H;
        try discriminate H; injection H as _ <-; simpl; lia.
    + split; [discriminate |]. intros e r H. injection H as _ <-. simpl. lia.
Qed.

Lemma parse_number_length (s : list N) :
  parse_number s <> Exhausted
  /\ forall v r, parse_number s = Parsed (v, r) -> (length r < length s)%nat.
Proof.
  unfold parse_number.
  pose proof (parse_sign_length false s) as L1.
  destruct (parse_sign false s) as [neg s1]. simpl in L1.
  pose proof (read_digits_length s1) as [_ L2].
  destruct (read_digits s1) as [ip s2]. simpl in L2.
  destruct (int_ok ip) eqn:Ok; [| split; [discriminate | intros; discriminate]].
  specialize (L2 (@int_ok_nonnil _ Ok)).
  destruct (parse_fraction_length s2) as [F1 F2].
  destruct (parse_fraction s2) as [[fp s3] | |]; cbn [obind];
    [| split; [discriminate | intros; discriminate] | contradiction].
  specialize (F2 _ _ eq_refl).
  destruct (parse_exponent_length s3) as [E1 E2].
  destruct (parse_exponent s3) as [[e s4] | |]; cbn [obind];
    [| split; [discriminate | intros; discriminate] | contradiction].
  specialize (E2 _ _ eq_refl).
  split; [discriminate |]. intros v r H. injection H as _ <-. lia.
Qed.

Lemma cons_char_inv (c : N) (o : outcome (jsstring * list N)) :
  (cons_char c o = Exhausted -> o = Exhausted)
  /\ forall str r, cons_char c o = Parsed (str, r) ->
       exists str', o = Parsed (str', r).
Proof.
  destruct o as [[str' r'] | |]; cbn; split; try discriminate; try tauto.
  intros str r H. injection H as _ <-. eauto.
Qed.

Lemma parse_chars_length_upto (n : nat) :
  forall s : list N,
    (length s <= n)%nat ->
    parse_chars s <> Exhausted
    /\ forall str r, parse_chars s = Parsed (str, r) -> (length r < length s)%nat.
Proof.
  induction n as [| n IH]; intros s Hn.
  - destruct s; [| simpl in Hn; lia].
    split; [discriminate | intros; discriminate].
  - destruct s as [| c s1]; [split; [discriminate | intros; discriminate] |].
    simpl in Hn. cbn [parse_chars].
    assert (K : forall (u : N) (t : list N),
               (length t <= n)%nat -> (length t <= length s1)%nat ->
               cons_char u (parse_chars t) <> Exhausted
               /\ forall str r, cons_char u (parse_chars t) = Parsed (str, r) ->
                    (length r < length (c :: s1))%nat).
    { intros u t Ht Hs. destruct (IH t Ht) as [I1 I2].
      destruct (cons_char_inv u (parse_chars t)) as [C1 C2]. split.
      - intro E. apply I1, C1, E.
      - intros str r E. destruct (C2 _ _ E) as [str' E'].
        specialize (I2 _ _ E'). simpl. lia. }
    destruct (c =? 34).
    { split; [discriminate |]. intros str r H. injection H as _ <-. simpl. lia. }
    destruct (c =? 92).
    { destruct s1 as [| e s2]; [split; [discriminate | intros; discriminate] |].
      destruct (e =? 117).
      - destruct s2 as [| h1 [| h2 [| h3 [| h4 s3]]]];
          try (split; [discriminate | intros; discriminate]).
        destruct (hex4 h1 h2 h3 h4);
          [| split; [discriminate | intros; discriminate]].
        apply K; simpl in *; lia.
      - destruct (unescape e); [| split; [discriminate | intros; discriminate]].
        apply K; simpl in *; lia. }
    destruct (c <? 32); [split; [discriminate | intros; discriminate] |].
    apply K; simpl in *; lia.
Qed.

Lemma parse_chars_length (s : list N) :
  parse_chars s <> Exhausted
  /\ forall str r, parse_chars s = Parsed (str, r) -> (length r < length s)%nat.
Proof. apply (@parse_chars_length_upto (length s)). apply Nat.le_refl. Qed.

Lemma keyword_length (w : string) (v : json) (c : N) (s1 : list N) :
  w <> EmptyString ->
  keyword w v (c :: s1) <> Exhausted
  /\ forall v' r, keyword w v (c :: s1) = Parsed (v', r) ->
       (length r < length (c :: s1))%nat.
Proof.
  intro Hw. unfold keyword.
  destruct (jsstring_eqb _ _); [| split; [discriminate | intros; discriminate]].
  split; [discriminate |]. intros v' r H. injection H as _ <-.
  rewrite length_skipn. destruct w as [| a w]; [contradiction |].
  simpl. lia.
Qed.

(** Whatever the budget, a parsing function that returns has read at least
    one character. *)
Lemma parsing_consumes (n : nat) :
  (forall s v r, parse_value n s = Parsed (v, r) -> (length r < length s)%nat)
  /\ (forall s l r, parse_elements n s = Parsed (l, r) ->
       (length r < length s)%nat)
  /\ (forall s m r, parse_members n s = Parsed (m, r) ->
       (length r < length s)%nat).
Proof.
  induction n as [| n (IHv & IHe & IHm)];
    [repeat split; intros; discriminate |].
  repeat split.
  - intros s v r. cbn [parse_value].
    destruct (skip_ws s) as [| c s1] eqn:Es; [discriminate |].
    pose proof (skip_ws_cons _ Es) as Ls.
    destruct (c =? 110).
    { intro H. apply keyword_length in H; [simpl in H; lia | discriminate]. }
    destruct (c =? 116).
    { intro H. apply keyword_length in H; [simpl in H; lia | discriminate]. }
    destruct (c =? 102).
    { intro H. apply keyword_length in H; [simpl in H; lia | discriminate]. }
    destruct (c =? 34).
    { destruct (parse_chars_length s1) as [_ P].
      destruct (parse_chars s1) as [[str r'] | |]; cbn [obind]; try discriminate.
      intro H. injection H as _ <-. specialize (P _ _ eq_refl). lia. }
    destruct (c =? 91).
    { destruct (skip_ws s1) as [| c2 r0] eqn:E1; [discriminate |].
      pose proof (skip_ws_cons _ E1) as L1.
      destruct (c2 =? 93); [intro H; injection H as _ <-; lia |].
      destruct (parse_elements n (c2 :: r0)) as [[l r'] | |] eqn:Ee;
        cbn [obind]; try discriminate.
      intro H. injection H as _ <-. apply IHe in Ee. simpl in Ee. lia. }
    destruct (c =? 123).
    { destruct (skip_ws s1) as [| c2 r0] eqn:E1; [discriminate |].
      pose proof (skip_ws_cons _ E1) as L1.
      destruct (c2 =? 125); [intro H; injection H as _ <-; lia |].
      destruct (parse_members n (c2 :: r0)) as [[l r'] | |] eqn:Ee;
        cbn [obind]; try discriminate.
      intro H. injection H as _ <-. apply IHm in Ee. simpl in Ee. lia. }
    destruct ((c =? 45) || is_digit c); [| discriminate].
    intro H. apply parse_number_length in H. simpl in H. lia.
  - intros s l r. cbn [parse_elements].
    destruct (parse_value n s) as [[v s1] | |] eqn:Ev; cbn [obind];
      try discriminate.
    apply IHv in Ev.
    destruct (skip_ws s1) as [| c s2] eqn:E1; [discriminate |].
    pose proof (skip_ws_cons _ E1) as L1.
    destruct (c =? 44).
    { destruct (parse_elements n s2) as [[l' r'] | |] eqn:Ee; cbn [obind];
        try discriminate.
      intro H. injection H as _ <-. apply IHe in Ee. lia. }
    destruct (c =? 93); [| discriminate].
    intro H. injection H as _ <-. lia.
  - intros s m r. cbn [parse_members].
    destruct (skip_ws s) as [| q s1] eqn:Es; [discriminate |].
    pose proof (skip_ws_cons _ Es) as Ls.
    destruct (q =? 34); [| discriminate].
    destruct (parse_chars_length s1) as [_ P].
    destruct (parse_chars s1) as [[k s2] | |]; cbn [obind]; try discriminate.
    specialize (P _ _ eq_refl).
    destruct (skip_ws s2) as [| c s3] eqn:E2; [discriminate |].
    pose proof (skip_ws_cons _ E2) as L2.
    destruct (c =? 58); [| discriminate].
    destruct (parse_value n s3) as [[v s4] | |] eqn:Ev; cbn [obind];
      try discriminate.
    apply IHv in Ev.
    destruct (skip_ws s4) as [| c' s5] eqn:E4; [discriminate |].
    pose proof (skip_ws_cons _ E4) as L4.
    destruct (c' =? 44).
    { destruct (parse_members n s5) as [[m' r'] | |] eqn:Em; cbn [obind];
        try discriminate.
      intro H. injection H as _ <-. apply IHm in Em. lia. }
    destruct (c' =? 125); [| discriminate].
    intro H. injection H as _ <-. lia.
Qed.

(** With a budget of twice the length of the input, no parsing function
    uses its budget up. *)
Lemma parsing_budget (n : nat) :
  (forall s, (2 * length s + 1 <= n)%nat -> parse_value n s <> Exhausted)
  /\ (forall s, (2 * length s + 2 <= n)%nat -> parse_elements n s <> Exhausted)
  /\ (forall s, (2 * length s + 2 <= n)%nat -> parse_members n s <> Exhausted).
Proof.
  induction n as [| n (IHv & IHe & IHm)]; [repeat split; intros; lia |].
  destruct (parsing_consumes n) as (Cv & Ce & Cm).
  repeat split.
  - intros s Hn. cbn [parse_value].
    destruct (skip_ws s) as [| c s1] eqn:Es; [discriminate |].
    pose proof (skip_ws_cons _ Es) as Ls.
    destruct (c =? 110); [apply keyword_length; discriminate |].
    destruct (c =? 116); [apply keyword_length; discriminate |].
    destruct (c =? 102); [apply keyword_length; discriminate |].
    destruct (c =? 34).
    { destruct (parse_chars_length s1) as [P _].
      destruct (parse_chars s1) as [[str r'] | |]; cbn [obind];
        [discriminate | discriminate | contradiction]. }
    destruct (c =? 91).
    { destruct (skip_ws s1) as [| c2 r0] eqn:E1; [discriminate |].
      pose proof (skip_ws_cons _ E1) as L1.
      destruct (c2 =? 93); [discriminate |].
      assert (B : parse_elements n (c2 :: r0) <> Exhausted)
        by (apply IHe; simpl; lia).
      destruct (parse_elements n (c2 :: r0)) as [[l r'] | |]; cbn [obind];
        [discriminate | discriminate | contradiction]. }
    destruct (c =? 123).
    { destruct (skip_ws s1) as [| c2 r0] eqn:E1; [discriminate |].
      pose proof (skip_ws_cons _ E1) as L1.
      destruct (c2 =? 125); [discriminate |].
      assert (B : parse_members n (c2 :: r0) <> Exhausted)
        by (apply IHm; simpl; lia).
      destruct (parse_members n (c2 :: r0)) as [[l r'] | |]; cbn [obind];
        [discriminate | discriminate | contradiction]. }
    destruct ((c =? 45) || is_digit c); [| discriminate].
    apply parse_number_length.
  - intros s Hn. cbn [parse_elements].
    assert (B : parse_value n s <> Exhausted) by (apply IHv; lia).
    destruct (parse_value n s) as [[v s1] | |] eqn:Ev; cbn [obind];
      [| discriminate | contradiction].
    apply Cv in Ev.
    destruct (skip_ws s1) as [| c s2] eqn:E1; [discriminate |].
    pose proof (skip_ws_cons _ E1) as L1.
    destruct (c =? 44).
    { assert (B' : parse_elements n s2 <> Exhausted) by (apply IHe; lia).
      destruct (parse_elements n s2) as [[l' r'] | |]; cbn [obind];
        [discriminate | discriminate | contradiction]. }
    destruct (c =? 93); discriminate.
  - intros s Hn. cbn [parse_members].
    destruct (skip_ws s) as [| q s1] eqn:Es; [discriminate |].
    pose proof (skip_ws_cons _ Es) as Ls.
    destruct (q =? 34); [| discriminate].
    destruct (parse_chars_length s1) as [P1 P2].
    destruct (parse_chars s1) as [[k s2] | |]; cbn [obind];
      [| discriminate | contradiction].
    specialize (P2 _ _ eq_refl).
    destruct (skip_ws s2) as [| c s3] eqn:E2; [discriminate |].
    pose proof (skip_ws_cons _ E2) as L2.
    destruct (c =? 58); [| discriminate].
    assert (B : parse_value n s3 <> Exhausted) by (apply IHv; lia).
    destruct (parse_value n s3) as [[v s4] | |] eqn:Ev; cbn [obind];
      [| discriminate | contradiction].
    apply Cv in Ev.
    destruct (skip_ws s4) as [| c' s5] eqn:E4; [discriminate |].
    pose proof (skip_ws_cons _ E4) as L4.
    destruct (c' =? 44).
    { assert (B' : parse_members n s5 <> Exhausted) by (apply IHm; lia).
      destruct (parse_members n s5) as [[m' r'] | |]; cbn [obind];
        [discriminate | discriminate | contradiction]. }
    destruct (c' =? 125); discriminate.
Qed.

(** The budget [JSON_parse] gives is enough for every text. *)
Lemma parse_value_budget (text : jsstring) :
  parse_value (S (2 * length text)) text <> Exhausted.
Proof. apply parsing_budget. lia. Qed.

End CodecBudget.

(** ** PersistenceAdapter *)

Lemma JSON_parse_stringify (v : json) :
  plain v -> JSON_parse (JSON_stringify v) = inr v.
Proof.
  intro H. unfold JSON_parse, JSON_stringify.
  pose proof (@CodecFacts.plain_read_back v H
                (S (2 * length (Codec.stringify v))) [] ) as R.
  rewrite app_nil_r in R. rewrite R; [reflexivity | lia | exact I].
Qed.

Lemma Forall_map_plain {A} (f : A -> json) (l : list A) :
  (forall a, plain (f a)) -> Forall plain (map f l).
Proof. intro H. induction l; constructor; auto. Qed.

Ltac distinct_keys :=
  cbn [map fst];
  repeat (constructor; [cbv; intuition discriminate |]); constructor.

Ltac each_member :=
  repeat (apply Forall_cons || apply Forall_nil); cbn [snd];
  try apply plain_str; try apply plain_num.

Lemma plain_document (d : ResumeDocument) : plain (ToJS.of_document d).
Proof.
  unfold ToJS.of_document. constructor; [distinct_keys |]. each_member.
  - unfold ToJS.of_personal. constructor; [distinct_keys |]. each_member.
  - constructor. apply Forall_map_plain. constructor.
  - constructor. apply Forall_map_plain. intro e. unfold ToJS.of_experience.
    constructor; [distinct_keys |]. each_member.
  - constructor. apply Forall_map_plain. intro e. unfold ToJS.of_education.
    constructor; [distinct_keys |]. each_member.
Qed.

Lemma all_map {A} (dec : json -> option A) (enc : A -> json) (l : list A) :
  (forall a, dec (enc a) = Some a) -> FromJS.all dec (map enc l) = Some l.
Proof.
  intro H. induction l as [| a l IH]; cbn; [reflexivity |].
  rewrite H. cbn. rewrite IH. reflexivity.
Qed.

(** Reading back the JavaScript value of a document gives the document. *)
Lemma to_document_of_document (d : ResumeDocument) :
  FromJS.to_document (ToJS.of_document d) = Some d.
Proof.
  destruct d as [p su sk ex ed tpl]. cbn.
  rewrite (all_map FromJS.to_string JStr) by reflexivity.
  rewrite (all_map FromJS.to_experience ToJS.of_experience)
    by (intros []; reflexivity).
  rewrite (all_map FromJS.to_education ToJS.of_education)
    by (intros []; reflexivity).
  destruct p. reflexivity.
Qed.

Lemma stringify_document_truthy (d : ResumeDocument) :
  truthy (JSON_stringify (ToJS.of_document d)) = true.
Proof. reflexivity. Qed.

Lemma load_saved (t0 t1 : Z) (d : ResumeDocument) (st : Storage) :
  load t0 t1 (save d st) = inr (ToJS.of_document d).
Proof.
  unfold load, load_body, save, setItem, getItem.
  rewrite stringify_document_truthy, JSON_parse_stringify by apply plain_document.
  reflexivity.
Qed.

(** C5: for every document reached from the default document by mutations,
    [load] after [save] returns the JavaScript value of that document, which
    reads back as the document itself. *)
Theorem save_then_load (t0 t1 : Z) (ms : list Mutation) (st : Storage) :
  let doc := run t0 t1 ms (defaultData t0 t1) in
  load t0 t1 (save doc st) = inr (ToJS.of_document doc)
  /\ FromJS.to_document (ToJS.of_document doc) = Some doc.
Proof.
  cbv zeta. split; [apply load_saved | apply to_document_of_document].
Qed.

(** C4, as the code has it: [load] never raises; it returns the default
    document when the slot is absent or empty or when its text is not JSON,
    and otherwise whatever value the text decodes to, unchecked. *)
Theorem load_falls_back_on_parse_errors (t0 t1 : Z) :
  let default := ToJS.of_document (defaultData t0 t1) in
  (forall st, exists v, load t0 t1 st = inr v)
  /\ load t0 t1 None = inr default
  /\ load t0 t1 (Some []) = inr default
  /\ forall (c : N) (text : jsstring),
       load t0 t1 (Some (c :: text))
       = inr match JSON_parse (c :: text) with
             | inr v => v
             | inl _ => default
             end.
Proof.
  cbv zeta. unfold load, load_body, getItem, try_catch.
  split; [| split; [reflexivity | split; [reflexivity |]]].
  - intros [[| c text] |]; cbn [truthy]; try (eexists; reflexivity).
    destruct (JSON_parse (c :: text)); eexists; reflexivity.
  - intros c text. cbn [truthy].
    destruct (JSON_parse (c :: text)); reflexivity.
Qed.

(** C4 fails as stated: the stored text [{}] decodes to an object with no
    property, which is no document, and [load] returns it. *)
Lemma load_returns_invalid_document :
  let t := 1700000000000%Z in
  load t t (Some (js "{}")) = inr (JObj [])
  /\ FromJS.to_document (JObj []) = None
  /\ load t t (Some (js "{}")) <> inr (ToJS.of_document (defaultData t t)).
Proof.
  cbv zeta. split; [reflexivity | split; [reflexivity |]].
  discriminate.
Qed.

(** A truncated text is not JSON: [load] returns the default document. *)
Example load_truncated_text :
  let t := 1700000000000%Z in
  load t t (Some (firstn 40 (JSON_stringify (ToJS.of_document (defaultData t t)))))
  = inr (ToJS.of_document (defaultData t t)).
Proof. vm_compute. reflexivity. Qed.

(** ** More of the DocumentStore *)

Lemma filter_index_past {A} (index : nat) (l : list A) (i : nat) :
  (index < i)%nat -> filter_index (fun j => negb (j =? index)%nat) i l = l.
Proof.
  revert i. induction l as [| x l IH]; intros i H; simpl; [reflexivity |].
  replace (i =? index)%nat with false by (symmetry; apply Nat.eqb_neq; lia).
  simpl. rewrite IH by lia. reflexivity.
Qed.

Lemma filter_index_split {A} (index : nat) (l : list A) (i : nat) :
  (i <= index)%nat ->
  filter_index (fun j => negb (j =? index)%nat) i l
  = firstn (index - i) l ++ skipn (S (index - i)) l.
Proof.
  revert i. induction l as [| x l IH]; intros i H; simpl.
  - rewrite firstn_nil. reflexivity.
  - destruct (Nat.eqb_spec i index) as [-> | Hne]; simpl.
    + rewrite Nat.sub_diag. simpl. apply filter_index_past. lia.
    + rewrite IH by lia.
      replace (index - i)%nat with (S (index - S i)) by lia. reflexivity.
Qed.

(** X1: [removeSkill(index)] keeps the skills before position [index] and
    those after it, in order, and touches nothing else. *)
Theorem removeSkill_removes_position (d : ResumeDocument) (index : nat) :
  skills (removeSkill index d)
  = firstn index (skills d) ++ skipn (S index) (skills d)
  /\ personal (removeSkill index d) = personal d
  /\ summary (removeSkill index d) = summary d
  /\ experience (removeSkill index d) = experience d
  /\ education (removeSkill index d) = education d
  /\ template (removeSkill index d) = template d.
Proof.
  repeat split. unfold removeSkill. cbn [skills with_skills].
  rewrite filter_index_split by lia. rewrite Nat.sub_0_r. reflexivity.
Qed.

(** X2: [removeSkill(index)] with an index past the end leaves the document
    as it is. *)
Theorem removeSkill_out_of_range (d : ResumeDocument) (index : nat) :
  (length (skills d) <= index)%nat -> removeSkill index d = d.
Proof.
  intro H. unfold removeSkill, with_skills.
  rewrite filter_index_split by lia. rewrite Nat.sub_0_r.
  rewrite firstn_all2 by exact H. rewrite skipn_all2 by lia.
  rewrite app_nil_r. destruct d; reflexivity.
Qed.

Lemma removeSkill_out_of_range_witness :
  (length (skills (defaultData 0 0)) <= 4)%nat
  /\ removeSkill 4 (defaultData 0 0) = defaultData 0 0.
Proof.
  split; [simpl; lia | apply removeSkill_out_of_range; simpl; lia].
Defined.

(** X3: adding a non-empty skill and then removing the last position gives
    the document back. *)
Theorem addSkill_then_remove_last (d : ResumeDocument) (c : N) (s : jsstring) :
  removeSkill (length (skills d)) (addSkill (c :: s) d) = d.
Proof.
  unfold removeSkill, addSkill, with_skills. cbn [truthy negb skills personal
    summary experience education template].
  rewrite filter_index_split by lia. rewrite Nat.sub_0_r.
  rewrite firstn_app, Nat.sub_diag, firstn_all. simpl firstn.
  rewrite skipn_all2 by (rewrite length_app; simpl; lia).
  rewrite !app_nil_r. destruct d; reflexivity.
Qed.

Lemma experience_get_set (f g : Experience.field) (v : jsstring) (e : Experience.t) :
  experience_get g (Experience.set f v e)
  = if experience_field_eqb g f then v else experience_get g e.
Proof. destruct f, g; reflexivity. Qed.

Lemma education_get_set (f g : Education.field) (v : jsstring) (e : Education.t) :
  education_get g (Education.set f v e)
  = if education_field_eqb g f then v else education_get g e.
Proof. destruct f, g; reflexivity. Qed.

(** X4: [updateExperience(id, field, value)] keeps the number, order and ids
    of the entries; in every entry with that id, duplicates included, the
    named field becomes [value]; every other field of every entry, and every
    other section, is as before. *)
Theorem updateExperience_fieldwise (d : ResumeDocument) (id : Z)
    (f : Experience.field) (v : jsstring) :
  Forall2
    (fun old new =>
       Experience.id new = Experience.id old
       /\ forall g, experience_get g new
                    = if (Experience.id old =? id)%Z && experience_field_eqb g f
                      then v else experience_get g old)
    (experience d) (experience (updateExperience id f v d))
  /\ personal (updateExperience id f v d) = personal d
  /\ summary (updateExperience id f v d) = summary d
  /\ skills (updateExperience id f v d) = skills d
  /\ education (updateExperience id f v d) = education d
  /\ template (updateExperience id f v d) = template d.
Proof.
  repeat split. unfold updateExperience. cbn [experience with_experience].
  induction (experience d) as [| e l IH]; simpl; constructor; [| exact IH].
  destruct (Experience.id e =? id)%Z; simpl.
  - split; [destruct f; reflexivity | intro g; apply experience_get_set].
  - split; [reflexivity | intro g; reflexivity].
Qed.

(** X5: [updateEducation(id, field, value)] keeps the number, order and ids
    of the entries; in every entry with that id the named field becomes
    [value]; every other field of every entry, and every other section, is
    as before. *)
Theorem updateEducation_fieldwise (d : ResumeDocument) (id : Z)
    (f : Education.field) (v : jsstring) :
  Forall2
    (fun old new =>
       Education.id new = Education.id old
       /\ forall g, education_get g new
                    = if (Education.id old =? id)%Z && education_field_eqb g f
                      then v else education_get g old)
    (education d) (education (updateEducation id f v d))
  /\ personal (updateEducation id f v d) = personal d
  /\ summary (updateEducation id f v d) = summary d
  /\ skills (updateEducation id f v d) = skills d
  /\ experience (updateEducation id f v d) = experience d
  /\ template (updateEducation id f v d) = template d.
Proof.
  repeat split. unfold updateEducation. cbn [education with_education].
  induction (education d) as [| e l IH]; simpl; constructor; [| exact IH].
  destruct (Education.id e =? id)%Z; simpl.
  - split; [destruct f; reflexivity | intro g; apply education_get_set].
  - split; [reflexivity | intro g; reflexivity].
Qed.

Lemma map_if_absent {A} (key : A -> Z) (id : Z) (g : A -> A) (l : list A) :
  ~ In id (map key l) ->
  map (fun e => if (key e =? id)%Z then g e else e) l = l.
Proof.
  induction l as [| e l IH]; simpl; intro H; [reflexivity |].
  destruct (Z.eqb_spec (key e) id) as [E | E]; [exfalso; apply H; now left |].
  rewrite IH by tauto. reflexivity.
Qed.

Lemma filter_if_absent {A} (key : A -> Z) (id : Z) (l : list A) :
  ~ In id (map key l) ->
  filter (fun e => negb (key e =? id)%Z) l = l.
Proof.
  induction l as [| e l IH]; simpl; intro H; [reflexivity |].
  destruct (Z.eqb_spec (key e) id) as [E | E]; [exfalso; apply H; now left |].
  simpl. rewrite IH by tauto. reflexivity.
Qed.

(** X6: [updateExperience] with an id that no entry has leaves the document
    as it is. *)
Theorem updateExperience_absent (d : ResumeDocument) (id : Z)
    (f : Experience.field) (v : jsstring) :
  ~ In id (experience_ids d) -> updateExperience id f v d = d.
Proof.
  intro H. unfold updateExperience, with_experience.
  rewrite (map_if_absent Experience.id) by exact H. destruct d; reflexivity.
Qed.

Lemma updateExperience_absent_witness :
  ~ In 5%Z (experience_ids (defaultData 1 1))
  /\ updateExperience 5 Experience.Title (js "x") (defaultData 1 1)
     = defaultData 1 1.
Proof.
  assert (H : ~ In 5%Z (experience_ids (defaultData 1 1)))
    by (simpl; intros [E | []]; discriminate E).
  split; [exact H | apply updateExperience_absent; exact H].
Defined.



Lemma map_if_twice {A} (key : A -> Z) (id : Z) (g1 g2 : A -> A) (l : list A) :
  (forall e, key (g1 e) = key e) ->
  (forall e, g2 (g1 e) = g2 e) ->
  map (fun e => if (key e =? id)%Z then g2 e else e)
      (map (fun e => if (key e =? id)%Z then g1 e else e) l)
  = map (fun e => if (key e =? id)%Z then g2 e else e) l.
Proof.
  intros Hk Hg. rewrite map_map. apply map_ext. intro e.
  destruct (key e =? id)%Z eqn:E; [| rewrite E; reflexivity].
  rewrite Hk, E. apply Hg.
Qed.

(** X8: of two [updateExperience] calls on the same id and field the later
    value stays: the earlier call leaves no trace.  Likewise for
    [updateEducation]. *)
Theorem update_last_write_wins (d : ResumeDocument) (id : Z) (v1 v2 : jsstring) :
  (forall f, updateExperience id f v2 (updateExperience id f v1 d)
             = updateExperience id f v2 d)
  /\ (forall f, updateEducation id f v2 (updateEducation id f v1 d)
                = updateEducation id f v2 d).
Proof.
  split; intro f.
  - unfold updateExperience, with_experience. cbn [experience personal summary
      skills education template].
    rewrite (map_if_twice Experience.id); [reflexivity | |];
      intro e; destruct f; reflexivity.
  - unfold updateEducation, with_education. cbn [experience personal summary
      skills education template].
    rewrite (map_if_twice Education.id); [reflexivity | |];
      intro e; destruct f; reflexivity.
Qed.

Lemma filter_filter_comm {A} (p q : A -> bool) (l : list A) :
  filter p (filter q l) = filter q (filter p l).
Proof.
  induction l as [| e l IH]; simpl; [reflexivity |].
  destruct (p e) eqn:P, (q e) eqn:Q; simpl; rewrite ?P, ?Q, IH; reflexivity.
Qed.

Lemma filter_twice {A} (p : A -> bool) (l : list A) :
  filter p (filter p l) = filter p l.
Proof.
  induction l as [| e l IH]; simpl; [reflexivity |].
  destruct (p e) eqn:P; simpl; rewrite ?P, IH; reflexivity.
Qed.

(** X9: removing the same id twice is removing it once, and two removals
    can be done in either order; for experience and for education. *)
Theorem remove_idempotent_commutes (d : ResumeDocument) (a b : Z) :
  removeExperience a (removeExperience a d) = removeExperience a d
  /\ removeExperience a (removeExperience b d)
     = removeExperience b (removeExperience a d)
  /\ removeEducation a (removeEducation a d) = removeEducation a d
  /\ removeEducation a (removeEducation b d)
     = removeEducation b (removeEducation a d).
Proof.
  unfold removeExperience, removeEducation, with_experience, with_education.
  cbn [experience education personal summary skills template].
  repeat split.
  - now rewrite filter_twice.
  - now rewrite filter_filter_comm.
  - now rewrite filter_twice.
  - now rewrite filter_filter_comm.
Qed.

(** X10: when the clock reading is the id of no entry yet, [addExperience]
    followed by [removeExperience] of the new id gives the document back. *)
Theorem addExperience_then_remove (d : ResumeDocument) (now : Z) :
  ~ In now (experience_ids d) ->
  removeExperience now (addExperience now d) = d.
Proof.
  intro H. unfold removeExperience, addExperience, with_experience.
  cbn [experience personal summary skills education template].
  rewrite filter_app, (filter_if_absent Experience.id) by exact H.
  simpl. rewrite Z.eqb_refl. simpl. rewrite app_nil_r.
  destruct d; reflexivity.
Qed.

Lemma addExperience_then_remove_witness :
  ~ In 5%Z (experience_ids (defaultData 1 1))
  /\ removeExperience 5 (addExperience 5 (defaultData 1 1)) = defaultData 1 1.
Proof.
  assert (H : ~ In 5%Z (experience_ids (defaultData 1 1)))
    by (simpl; intros [E | []]; discriminate E).
  split; [exact H | apply addExperience_then_remove; exact H].
Defined.

(** X11: when the clock reading is already the id of an entry,
    [addExperience] followed by [removeExperience] of the new id loses the
    older entry too: the result is shorter than the document before the
    two calls. *)
Theorem addExperience_then_remove_loses (d : ResumeDocument) (now : Z) :
  In now (experience_ids d) ->
  (length (experience (removeExperience now (addExperience now d)))
   < length (experience d))%nat.
Proof.
  intro H. unfold removeExperience, addExperience.
  cbn [experience with_experience].
  rewrite filter_app. simpl. rewrite Z.eqb_refl. simpl. rewrite app_nil_r.
  unfold experience_ids in H.
  induction (experience d) as [| e l IH]; simpl in *; [contradiction |].
  destruct (Z.eqb_spec (Experience.id e) now) as [E | E]; simpl.
  - pose proof (filter_length_le (fun e0 => negb (Experience.id e0 =? now)%Z) l).
    lia.
  - destruct H as [H | H]; [contradiction |]. specialize (IH H). lia.
Qed.

Lemma addExperience_then_remove_loses_witness :
  In 1%Z (experience_ids (defaultData 1 1))
  /\ (length (experience (removeExperience 1 (addExperience 1 (defaultData 1 1))))
      < length (experience (defaultData 1 1)))%nat.
Proof.
  assert (H : In 1%Z (experience_ids (defaultData 1 1))) by (left; reflexivity).
  split; [exact H | apply addExperience_then_remove_loses; exact H].
Defined.

(** *** Ids under a clock that moves on *)

Lemma ids_below_weaken (b c : Z) (d : ResumeDocument) :
  (b <= c)%Z -> ids_below b d -> ids_below c d.
Proof.
  intros H [He Hd]. split; eapply Forall_impl; try eassumption;
    intros i Hi; simpl in Hi; lia.
Qed.







(** ** More of the preview and the templates *)

(** X13: the preview shows the Modern layout when [template] is ["modern"]
    and the Classic layout for every other value, ["classic"] or not. *)
Theorem preview_classic_unless_modern (d : ResumeDocument) (tpl : jsstring) :
  tpl <> js "modern" ->
  preview (setTemplate tpl d)
  = el "div" "bg-white p-6 rounded-2xl shadow max-w-[850px]"
       [ClassicTemplate (setTemplate tpl d)]
  /\ preview (setTemplate (js "modern") d)
     = el "div" "bg-white p-6 rounded-2xl shadow max-w-[850px]"
          [ModernTemplate (setTemplate (js "modern") d)].
Proof.
  intro H. split; [| reflexivity].
  unfold preview. cbn [template setTemplate].
  destruct (jsstring_eqb tpl (js "modern")) eqn:E; [| reflexivity].
  apply jsstring_eqb_eq in E. contradiction.
Qed.

Lemma preview_classic_unless_modern_witness :
  let d := defaultData 1 1 in
  js "bogus" <> js "modern"
  /\ preview (setTemplate (js "bogus") d)
     = el "div" "bg-white p-6 rounded-2xl shadow max-w-[850px]"
          [ClassicTemplate (setTemplate (js "bogus") d)].
Proof.
  cbv zeta.
  assert (H : js "bogus" <> js "modern") by discriminate.
  split; [exact H |].
  apply (@preview_classic_unless_modern (defaultData 1 1) (js "bogus") H).
Defined.

Lemma heading_of_skill_tags (l : list jsstring) (i : nat) :
  heading_of (mapi skill_tag i l) = None.
Proof. destruct l as [| a [| b [| c l]]]; reflexivity. Qed.

Lemma first_section_skill_tags (h : jsstring) (l : list jsstring) (i : nat) :
  first_section h (mapi skill_tag i l) = None.
Proof.
  revert i. induction l as [| a l IH]; intro i; simpl; [reflexivity |].
  apply IH.
Qed.

Lemma shown_skill_tags (l : list jsstring) (i : nat) :
  map shown (mapi skill_tag i l)
  = mapi (fun j s => (Some (Z.of_nat j), [s])) i l.
Proof.
  revert i. induction l as [| a l IH]; intro i; simpl; [reflexivity |].
  rewrite IH. reflexivity.
Qed.

(** X14: in the tree of either template the items under the heading
    [Skills] are the skills in stored order, each showing its text as it is
    and keyed by its position. *)
Theorem templates_show_all_skills (d : ResumeDocument) :
  option_map (map shown) (section_items (js "Skills") (ModernTemplate d))
  = Some (mapi (fun j s => (Some (Z.of_nat j), [s])) 0 (skills d))
  /\ option_map (map shown) (section_items (js "Skills") (ClassicTemplate d))
     = Some (mapi (fun j s => (Some (Z.of_nat j), [s])) 0 (skills d)).
Proof.
  unfold ModernTemplate, ClassicTemplate, el, txt.
  split; search_section; cbn [option_map]; f_equal; apply shown_skill_tags.
Qed.

Lemma texts_items {A} (item : A -> vnode) (l : list A) :
  flat_map texts (map item l) = flat_map (fun a => texts (item a)) l.
Proof.
  induction l as [| a l IH]; simpl; [reflexivity |]. rewrite IH. reflexivity.
Qed.

Lemma texts_skill_tags (l : list jsstring) (i : nat) :
  flat_map texts (mapi skill_tag i l) = l.
Proof.
  revert i. induction l as [| a l IH]; intro i; simpl; [reflexivity |].
  rewrite IH. reflexivity.
Qed.

(** X15: the whole text of the Modern layout, in document order: name,
    title, the five contact lines, then the sections Summary, Experience,
    Education and Skills, every field as it is stored. *)
Theorem modern_text (d : ResumeDocument) :
  let p := personal d in
  texts (ModernTemplate d)
  = [Personal.firstName p; js " "; Personal.lastName p; Personal.title p;
     Personal.email p; Personal.phone p; Personal.location p;
     Personal.linkedin p; Personal.website p;
     js "Summary"; summary d; js "Experience"]
    ++ flat_map (fun e => snd (modern_experience_shown e)) (experience d)
    ++ [js "Education"]
    ++ flat_map (fun e => snd (education_shown e)) (education d)
    ++ [js "Skills"] ++ skills d.
Proof.
  cbv zeta. unfold ModernTemplate, el, txt.
  cbn [texts flat_map app].
  rewrite !app_nil_r, !texts_items, texts_skill_tags.
  cbn [app]. rewrite <- ?app_assoc. reflexivity.
Qed.

(** X16: the whole text of the Classic layout: name, title and location,
    then email, phone and linkedin, then the sections Professional Summary,
    Experience, Education and Skills. *)
Theorem classic_text (d : ResumeDocument) :
  let p := personal d in
  texts (ClassicTemplate d)
  = [Personal.firstName p; js " "; Personal.lastName p;
     Personal.title p; bullet; Personal.location p;
     Personal.email p; bullet; Personal.phone p; bullet; Personal.linkedin p;
     js "Professional Summary"; summary d; js "Experience"]
    ++ flat_map (fun e => snd (classic_experience_shown e)) (experience d)
    ++ [js "Education"]
    ++ flat_map (fun e => snd (education_shown e)) (education d)
    ++ [js "Skills"] ++ skills d.
Proof.
  cbv zeta. unfold ClassicTemplate, el, txt.
  cbn [texts flat_map app].
  rewrite !app_nil_r, !texts_items, texts_skill_tags.
  cbn [app]. rewrite <- ?app_assoc. reflexivity.
Qed.

(** X17: the Classic layout does not depend on the website, and the Modern
    layout shows it. *)
Theorem website_only_in_modern (d : ResumeDocument) (v : jsstring) :
  ClassicTemplate (setPersonalField Personal.Website v d) = ClassicTemplate d
  /\ In v (texts (ModernTemplate (setPersonalField Personal.Website v d))).
Proof.
  split; [reflexivity |].
  unfold ModernTemplate, el, txt. cbn [texts flat_map app].
  cbn. do 8 right. left. reflexivity.
Qed.

(** ** SkillAdder *)

(** X18: pressing Enter in the input and clicking the Add button have the
    same effect on the document and on the input, whatever the input holds:
    with an empty input both leave the document as it is. *)
Theorem SkillAdder_enter_is_click (d : ResumeDocument) (val : jsstring) :
  SkillAdder.dispatch (d, val) (SkillAdder.KeyDown (js "Enter"))
  = SkillAdder.dispatch (d, val) SkillAdder.Click.
Proof. destruct val; reflexivity. Qed.

Lemma with_skills_same (d : ResumeDocument) : with_skills (skills d) d = d.
Proof. destruct d; reflexivity. Qed.

Lemma SkillAdder_dispatch_appends (s : ResumeDocument * jsstring)
    (e : SkillAdder.event) :
  exists added,
    fst (SkillAdder.dispatch s e) = with_skills (skills (fst s) ++ added) (fst s)
    /\ Forall (fun x => x <> []) added.
Proof.
  destruct s as [d val]. unfold SkillAdder.dispatch, SkillAdder.handle.
  cbn [fst].
  assert (Same : exists added,
             d = with_skills (skills d ++ added) d
             /\ Forall (fun x : jsstring => x <> []) added).
  { exists []. rewrite app_nil_r, with_skills_same. split; constructor. }
  destruct e as [v | key |]; [exact Same | |].
  - destruct (jsstring_eqb key (js "Enter")); [| exact Same].
    destruct val as [| c val]; [exact Same |].
    exists [c :: val]. split; [reflexivity |].
    constructor; [discriminate | constructor].
  - destruct val as [| c val]; [exact Same |].
    exists [c :: val]. split; [reflexivity |].
    constructor; [discriminate | constructor].
Qed.

(** X19: whatever is typed, keyed and clicked in the SkillAdder, the
    document only gains skills at the end of [skills], none of them empty;
    the skills already there and every other section stay as they are. *)
Theorem SkillAdder_only_appends (es : list SkillAdder.event)
    (d : ResumeDocument) (val : jsstring) :
  exists added,
    fst (fold_left SkillAdder.dispatch es (d, val))
    = with_skills (skills d ++ added) d
    /\ Forall (fun x => x <> []) added.
Proof.
  revert d val. induction es as [| e es IH]; intros d val; cbn [fold_left].
  - exists []. cbn [fst]. rewrite app_nil_r, with_skills_same.
    split; constructor.
  - destruct (SkillAdder_dispatch_appends (d, val) e) as (a1 & E1 & F1).
    destruct (SkillAdder.dispatch (d, val) e) as [d1 val1] eqn:D.
    cbn [fst] in E1. destruct (IH d1 val1) as (a2 & E2 & F2).
    exists (a1 ++ a2). split; [| apply Forall_app; split; assumption].
    rewrite E2, E1. cbn [skills with_skills].
    rewrite app_assoc. reflexivity.
Qed.

(** ** More of the DocumentStore and the draft *)

(** X20: after a confirmed [resetDraft] the next start of the page begins
    from a default document, before the effect has written the reset
    document to the store and after it; an unconfirmed [resetDraft] changes
    neither the document nor the store. *)
Theorem resetDraft_then_reload (t0 t1 t0' t1' : Z) (d : ResumeDocument)
    (st : Storage) :
  load t0' t1' (resetDraft_storage true st)
  = inr (ToJS.of_document (defaultData t0' t1'))
  /\ load t0' t1' (save (resetDraft t0 t1 true d) (resetDraft_storage true st))
     = inr (ToJS.of_document (defaultData t0 t1))
  /\ resetDraft t0 t1 false d = d
  /\ resetDraft_storage false st = st.
Proof.
  split; [reflexivity | split; [| split; reflexivity]].
  apply load_saved.
Qed.

(** X21: of two [setPersonalField] calls on the same field the later value
    stays, and calls on different fields can be done in either order. *)
Theorem setPersonalField_composes (d : ResumeDocument) (f g : Personal.field)
    (v w : jsstring) :
  setPersonalField f v (setPersonalField g w d)
  = if Personal.field_eqb f g then setPersonalField f v d
    else setPersonalField g w (setPersonalField f v d).
Proof. destruct f, g; reflexivity. Qed.

Lemma templates_differ (d : ResumeDocument) :
  ModernTemplate d <> ClassicTemplate d.
Proof. unfold ModernTemplate, ClassicTemplate, el. discriminate. Qed.

(** X22: the Modern button of the form is highlighted exactly when the
    preview shows the Modern layout; when the Classic button is highlighted
    the preview shows the Classic layout; the two buttons are never both
    highlighted. *)
Theorem template_buttons_follow_preview (d : ResumeDocument) :
  (template_button_class "modern" d = js "btn btn-primary"
   <-> preview d = el "div" "bg-white p-6 rounded-2xl shadow max-w-[850px]"
                      [ModernTemplate d])
  /\ (template_button_class "classic" d = js "btn btn-primary"
      -> preview d = el "div" "bg-white p-6 rounded-2xl shadow max-w-[850px]"
                        [ClassicTemplate d])
  /\ ~ (template_button_class "modern" d = js "btn btn-primary"
        /\ template_button_class "classic" d = js "btn btn-primary").
Proof.
  assert (Diff : el "div" "bg-white p-6 rounded-2xl shadow max-w-[850px]"
                   [ClassicTemplate d]
                 <> el "div" "bg-white p-6 rounded-2xl shadow max-w-[850px]"
                      [ModernTemplate d]).
  { pose proof (@templates_differ d) as T. unfold el. congruence. }
  assert (Out : js "btn " ++ js "btn-outline" <> js "btn btn-primary")
    by discriminate.
  unfold template_button_class, preview.
  destruct (jsstring_eqb (template d) (js "modern")) eqn:M;
    destruct (jsstring_eqb (template d) (js "classic")) eqn:C.
  - apply jsstring_eqb_eq in M, C. rewrite M in C. discriminate C.
  - split; [split; reflexivity |]. split; [intro H; contradiction |].
    intros [_ H]. contradiction.
  - split; [split; intro H; contradiction |]. split; [reflexivity |].
    intros [H _]. contradiction.
  - split; [split; intro H; contradiction |]. split; [intro H; contradiction |].
    intros [H _]. contradiction.
Qed.

(** X23: when the clock reading is the id of no education entry yet,
    [addEducation] followed by [removeEducation] of the new id gives the
    document back. *)
Theorem addEducation_then_remove (d : ResumeDocument) (now : Z) :
  ~ In now (education_ids d) ->
  removeEducation now (addEducation now d) = d.
Proof.
  intro H. unfold removeEducation, addEducation, with_education.
  cbn [experience personal summary skills education template].
  rewrite filter_app, (filter_if_absent Education.id) by exact H.
  simpl. rewrite Z.eqb_refl. simpl. rewrite app_nil_r.
  destruct d; reflexivity.
Qed.

Lemma addEducation_then_remove_witness :
  ~ In 5%Z (education_ids (defaultData 1 1))
  /\ removeEducation 5 (addEducation 5 (defaultData 1 1)) = defaultData 1 1.
Proof.
  assert (H : ~ In 5%Z (education_ids (defaultData 1 1)))
    by (simpl; intros [E | []]; discriminate E).
  split; [exact H | apply addEducation_then_remove; exact H].
Defined.

(** X24: removing an entry by an id other than the clock reading of a new
    entry gives the same document before or after the new entry is added:
    the new entry is kept and stays last. *)
Theorem remove_other_after_add (d : ResumeDocument) (id now : Z) :
  id <> now ->
  removeExperience id (addExperience now d)
  = addExperience now (removeExperience id d)
  /\ removeEducation id (addEducation now d)
     = addEducation now (removeEducation id d).
Proof.
  intro H. unfold removeExperience, addExperience, removeEducation,
    addEducation, with_experience, with_education.
  cbn [experience personal summary skills education template].
  rewrite !filter_app. simpl.
  replace (now =? id)%Z with false by (symmetry; apply Z.eqb_neq; congruence).
  split; reflexivity.
Qed.

Lemma remove_other_after_add_witness :
  1%Z <> 5%Z
  /\ removeExperience 1 (addExperience 5 (defaultData 1 1))
     = addExperience 5 (removeExperience 1 (defaultData 1 1))
  /\ removeEducation 1 (addEducation 5 (defaultData 1 1))
     = addEducation 5 (removeEducation 1 (defaultData 1 1)).
Proof.
  assert (H : 1%Z <> 5%Z) by discriminate.
  split; [exact H | apply remove_other_after_add; exact H].
Defined.
